(** * gambit-sbc-hwmonitor: CPU usage, process cache and wifi link status

    A shallow embedding of [internal/sensors/cpu.go] and of the wifi
    monitor backends, with the properties stated about them.

    Go's [float64] is Rocq's primitive binary64 [float] (same IEEE 754
    format, round to nearest even), Go's [int] is a 64-bit two's complement
    integer carried by [Z] with the wrap-around written out, and a Go
    [string] is a sequence of bytes, here [string] over [ascii]. *)

From Stdlib Require Import ZArith List String Ascii Bool Lia.
From Stdlib Require Import Floats Uint63 DecimalString.
Import ListNotations.

#[local] Set Warnings "-register-all".

Local Open Scope Z_scope.

(** ** Outcomes: a Go call returns or panics *)

Inductive outcome (A : Type) : Type :=
| Ret (a : A)
| Panic (msg : string).
Arguments Ret {A} a.
Arguments Panic {A} msg.

Definition bind {A B : Type} (o : outcome A) (k : A -> outcome B) : outcome B :=
  match o with
  | Ret a => k a
  | Panic msg => Panic msg
  end.

Notation "x <- o ;; k" := (bind o (fun x => k))
  (at level 61, o at next level, right associativity).

(** [s[i]] on a slice: a run-time panic when [i] is out of range. *)
Definition index {A : Type} (l : list A) (i : nat) : outcome A :=
  match nth_error l i with
  | Some a => Ret a
  | None => Panic "index out of range"
  end.

(** ** Go's int *)

Module GoInt.
Definition min_int : Z := - 2 ^ 63.
Definition max_int : Z := 2 ^ 63 - 1.
Definition wrap (z : Z) : Z := (z + 2 ^ 63) mod 2 ^ 64 - 2 ^ 63.
Definition mul (a b : Z) : Z := wrap (a * b).
End GoInt.

(** ** errors *)

Inductive numErr := ErrSyntax | ErrRange.

(** The error values the code handles.  [ErrProcessNotFound] is declared
    in cpu.go; [ErrAdapterNotFound] and [ErrNotConnected] are the typed
    conditions of the wifi monitor package. *)
Inductive error : Type :=
| ErrorString (msg : string)                       (* errors.New *)
| NumError (func num : string) (err : numErr)      (* *strconv.NumError *)
| JoinError (errs : list error)                    (* errors.Join *)
| ErrProcessNotFound
| ErrAdapterNotFound
| ErrNotConnected.

Module Errors.
Definition New (msg : string) : error := ErrorString msg.

(** [errors.Join]: nil errors are dropped; nil when none is left. *)
Fixpoint nonNil (errs : list (option error)) : list error :=
  match errs with
  | [] => []
  | None :: rest => nonNil rest
  | Some e :: rest => e :: nonNil rest
  end.

Definition Join (errs : list (option error)) : option error :=
  match nonNil errs with
  | [] => None
  | es => Some (JoinError es)
  end.
End Errors.

(** ** strings *)

Module Strings.
Local Open Scope string_scope.

Fixpoint HasPrefix (s prefix : string) : bool :=
  match prefix, s with
  | EmptyString, _ => true
  | String c p, String d t => Ascii.eqb c d && HasPrefix t p
  | String _ _, EmptyString => false
  end.

Definition HasSuffix (s suffix : string) : bool :=
  (length suffix <=? length s)%nat &&
  String.eqb (substring (length s - length suffix) (length suffix) s) suffix.

Definition TrimSuffix (s suffix : string) : string :=
  if HasSuffix s suffix then substring 0 (length s - length suffix) s else s.

Definition TrimPrefixLen (n : nat) (s : string) : string :=
  substring n (length s - n) s.

Fixpoint Contains (s substr : string) : bool :=
  HasPrefix s substr ||
  match s with
  | EmptyString => false
  | String _ t => Contains t substr
  end.

(** [strings.Split] for a non-empty separator: the pieces between the
    non-overlapping occurrences of [sep], found left to right; always at
    least one piece.  [skip] counts the bytes of a separator still to be
    passed over, [cur] is the piece being read.  (With an empty separator
    Go splits after each UTF-8 sequence; no caller here does that, and the
    model then splits after each byte.) *)
Fixpoint splitAux (sep s : string) (skip : nat) (cur : string) : list string :=
  match s with
  | EmptyString => [cur]
  | String c t =>
      match skip with
      | S k => splitAux sep t k cur
      | O =>
          match sep with
          | EmptyString =>
              match t with
              | EmptyString => [cur ++ String c EmptyString]
              | _ => (cur ++ String c EmptyString) :: splitAux sep t 0 EmptyString
              end
          | String _ sepTail =>
              if HasPrefix s sep
              then cur :: splitAux sep t (length sepTail) EmptyString
              else splitAux sep t 0 (cur ++ String c EmptyString)
          end
      end
  end.

Definition Split (s sep : string) : list string :=
  match s, sep with
  | EmptyString, EmptyString => []
  | _, _ => splitAux sep s 0 EmptyString
  end.

Definition bytes (l : list nat) : string :=
  string_of_list_ascii (map ascii_of_nat l).

(** The byte sequences that [unicode.IsSpace] accepts: the six ASCII
    white-space bytes and the UTF-8 encodings of U+0085, U+00A0, U+1680,
    U+2000..U+200A, U+2028, U+2029, U+202F, U+205F and U+3000.  Each of
    the longer ones starts with a UTF-8 leading byte, so wherever it
    occurs in a string Go decodes it as that rune. *)
Definition spaces : list string :=
  map bytes
    ([[9]; [10]; [11]; [12]; [13]; [32];
      [194; 133]; [194; 160]; [225; 154; 128]]
     ++ map (fun b => [226; 128; b]) (seq 128 11)
     ++ [[226; 128; 168]; [226; 128; 169]; [226; 128; 175];
         [226; 129; 159]; [227; 128; 128]])%nat%list.

(** The length of the white-space sequence that [s] starts (ends) with,
    if any. *)
Definition spacePrefix (s : string) : option nat :=
  option_map length (find (HasPrefix s) spaces).

Definition spaceSuffix (s : string) : option nat :=
  option_map length (find (HasSuffix s) spaces).

Fixpoint trimLeft (fuel : nat) (s : string) : string :=
  match fuel with
  | O => s
  | S fuel' =>
      match spacePrefix s with
      | Some n => trimLeft fuel' (TrimPrefixLen n s)
      | None => s
      end
  end.

Fixpoint trimRight (fuel : nat) (s : string) : string :=
  match fuel with
  | O => s
  | S fuel' =>
      match spaceSuffix s with
      | Some n => trimRight fuel' (substring 0 (length s - n) s)
      | None => s
      end
  end.

(** [strings.TrimSpace]; each step removes at least one byte, so the
    length of the string is fuel enough. *)
Definition TrimSpace (s : string) : string :=
  let l := trimLeft (length s) s in
  trimRight (length l) l.

(** [strings.Fields]: the maximal runs of bytes between white space. *)
Fixpoint fieldsAux (s : string) (skip : nat) (cur : string) : list string :=
  let flush := match cur with EmptyString => [] | _ => [cur] end in
  match s with
  | EmptyString => flush
  | String c t =>
      match skip with
      | S k => fieldsAux t k cur
      | O =>
          match spacePrefix s with
          | Some n => flush ++ fieldsAux t (n - 1) EmptyString
          | None => fieldsAux t 0 (cur ++ String c EmptyString)
          end
      end
  end.

Definition Fields (s : string) : list string := fieldsAux s 0 EmptyString.
End Strings.

(** ** strconv *)

Module Strconv.
Local Open Scope string_scope.
Local Open Scope Z_scope.

Definition digit (c : ascii) : option Z :=
  let n := Z.of_nat (nat_of_ascii c) in
  if (48 <=? n) && (n <=? 57) then Some (n - 48) else None.

(** The digit loop of [ParseUint(s, 10, 64)]: a byte that is no digit is
    a syntax error, a value past 2^64 - 1 a range error, whichever comes
    first. *)
Fixpoint parseUint (s : string) (acc : Z) : Z + numErr :=
  match s with
  | EmptyString => inl acc
  | String c t =>
      match digit c with
      | None => inr ErrSyntax
      | Some d =>
          if 2 ^ 64 - 1 <? acc * 10 + d then inr ErrRange
          else parseUint t (acc * 10 + d)
      end
  end.

Definition parseInt (s : string) : Z + numErr :=
  match s with
  | EmptyString => inr ErrSyntax
  | String c t =>
      let neg := Ascii.eqb c "-" in
      let body := if Ascii.eqb c "-" || Ascii.eqb c "+" then t else s in
      match body with
      | EmptyString => inr ErrSyntax
      | _ =>
          match parseUint body 0 with
          | inr e => inr e
          | inl un =>
              if neg then
                if 2 ^ 63 <? un then inr ErrRange else inl (- un)
              else
                if 2 ^ 63 <=? un then inr ErrRange else inl un
          end
      end
  end.

(** [strconv.Atoi]: an optional sign and decimal digits, within int. *)
Definition Atoi (s : string) : Z + error :=
  match parseInt s with
  | inl n => inl n
  | inr e => inr (NumError "Atoi" s e)
  end.

(** [strconv.Itoa]. *)
Definition Itoa (n : Z) : string :=
  NilZero.string_of_int (Z.to_int n).
End Strconv.

(** ** path/filepath (Unix) *)

Module Filepath.
Local Open Scope string_scope.

Definition isSep (c : ascii) : bool := Ascii.eqb c "/".

Fixpoint stripTrailingSeps (s : string) : string :=
  match s with
  | EmptyString => EmptyString
  | String c t =>
      match stripTrailingSeps t with
      | EmptyString => if isSep c then EmptyString else String c EmptyString
      | t' => String c t'
      end
  end.

Fixpoint lastElem (s cur : string) : string :=
  match s with
  | EmptyString => cur
  | String c t =>
      if isSep c then lastElem t EmptyString
      else lastElem t (cur ++ String c EmptyString)
  end.

(** [filepath.Base]. *)
Definition Base (path : string) : string :=
  match path with
  | EmptyString => "."
  | _ =>
      match lastElem (stripTrailingSeps path) EmptyString with
      | EmptyString => "/"
      | elem => elem
      end
  end.

(** [filepath.Join] of elements that are non-empty and already clean:
    the elements with a separator between them. *)
Definition Join (elems : list string) : string := String.concat "/" elems.
End Filepath.

(** ** float64 helpers *)

Module Float64.

(** [math.Round]: nearest integer, halves away from zero; NaN, the
    infinities, the zeros and every value of magnitude at least 2^52 are
    returned as they are.  For a finite [m * 2^e] with [e < 0] the
    magnitude is [floor (m * 2^e + 1/2)], which is below 2^53 and so
    converts exactly. *)
Definition round_magnitude (m : positive) (e : Z) : Z :=
  (Z.pos m + 2 ^ (- e - 1)) / 2 ^ (- e).

Definition Round (x : float) : float :=
  match Prim2SF x with
  | S754_finite s m e =>
      if 0 <=? e then x
      else
        let r := PrimFloat.of_uint63 (Uint63.of_Z (round_magnitude m e)) in
        if s then (- r)%float else r
  | _ => x
  end.

(** [math.Pow(10, n)] for the small non-negative [n] used as a number of
    decimal places: 10^n is exact in binary64 up to n = 22. *)
Definition Pow10 (n : Z) : float :=
  PrimFloat.of_uint63 (Uint63.of_Z (10 ^ n)).

End Float64.

(** ** utils.RoundValue *)

(** Modelled from the spec: [utils.RoundValue] lives in the [utils] package,
    which is not among the sources; the spec says the usage is "rounded to
    2 decimal places".  The model scales by 10^places, rounds to the nearest
    integer with [math.Round] and scales back. *)
Definition RoundValue (value : float) (places : Z) : float :=
  let ratio := Float64.Pow10 places in
  (Float64.Round (value * ratio) / ratio)%float.

(** ** internal/sensors/cpu.go *)

Module Sensors.

Record CPUCoreStats := {
  User : float;
  Nice : float;
  System : float;
  Idle : float;
  IOWait : float;
  IRQ : float;
  SoftIRQ : float;
  Steal : float
}.

Definition idleOf (s : CPUCoreStats) : float :=
  (Idle s + IOWait s)%float.

Definition nonIdleOf (s : CPUCoreStats) : float :=
  (User s + Nice s + System s + IRQ s + SoftIRQ s + Steal s)%float.

Definition totalOf (s : CPUCoreStats) : float :=
  (idleOf s + nonIdleOf s)%float.

(** The raw usage, before clamping and rounding. *)
Definition rawUsage (prev curr : CPUCoreStats) : float :=
  let totalDelta := (totalOf curr - totalOf prev)%float in
  let idleDelta := (idleOf curr - idleOf prev)%float in
  (((totalDelta - idleDelta) / totalDelta) * 100)%float.

Definition CalculateUsage (prev curr : CPUCoreStats) : float :=
  let prevIdle := (Idle prev + IOWait prev)%float in
  let currIdle := (Idle curr + IOWait curr)%float in
  let prevNonIdle :=
    (User prev + Nice prev + System prev + IRQ prev + SoftIRQ prev + Steal prev)%float in
  let currNonIdle :=
    (User curr + Nice curr + System curr + IRQ curr + SoftIRQ curr + Steal curr)%float in
  let prevTotal := (prevIdle + prevNonIdle)%float in
  let currTotal := (currIdle + currNonIdle)%float in
  if (currTotal <=? prevTotal)%float then (-1)%float
  else if (currIdle <? prevIdle)%float then (-1)%float
  else
    let totalDelta := (currTotal - prevTotal)%float in
    let idleDelta := (currIdle - prevIdle)%float in
    let usage := (((totalDelta - idleDelta) / totalDelta) * 100)%float in
    if (usage <? 0)%float then 0%float
    else if (100 <? usage)%float then 100%float
    else RoundValue usage 2.

(** A snapshot with every counter at zero except those given. *)
Definition stats (user system idle : float) : CPUCoreStats :=
  {| User := user; Nice := 0; System := system; Idle := idle;
     IOWait := 0; IRQ := 0; SoftIRQ := 0; Steal := 0 |}.

(** The sentinel test a caller makes: the result compares equal to -1. *)
Definition invalid (r : float) : bool := (r =? -1)%float.

(** A counter regression, in the spec's words: the current total is not
    above the previous one, or the current idle time is below the previous
    one. *)
Definition regression (prev curr : CPUCoreStats) : bool :=
  (totalOf curr <=? totalOf prev)%float || (idleOf curr <? idleOf prev)%float.

(** Clamping to [0, 100] as the code does it: a NaN passes through. *)
Definition clamp (usage : float) : float :=
  if (usage <? 0)%float then 0%float
  else if (100 <? usage)%float then 100%float
  else usage.

Definition inRange (r : float) : bool := (0 <=? r)%float && (r <=? 100)%float.

(** Every counter is NaN. *)
Definition nanStats : CPUCoreStats :=
  {| User := nan; Nice := nan; System := nan; Idle := nan;
     IOWait := nan; IRQ := nan; SoftIRQ := nan; Steal := nan |}.


(** *** Process handles *)

Local Open Scope string_scope.
Local Open Scope list_scope.

(** gopsutil's [process.Process]: the handle the OS library gives for a
    pid. *)
Record process_Process := { Pid : Z }.

(** What gopsutil answers when asked for the executable path or the
    command line of a pid.  The answer may change between calls, so each
    oracle also takes the number of calls made so far. *)
Record ProcessOS := {
  osExe : Z -> nat -> string + error;
  osCmdline : Z -> nat -> string + error
}.

(** The number of calls made to each oracle. *)
Record Calls := { exeCalls : nat; cmdlineCalls : nat }.

Record Process := {
  proc : option process_Process;   (* the embedded *process.Process *)
  PID : Z;
  Name : string;
  exe : string;
  cmdline : string
}.

Definition setExe (p : Process) (v : string) : Process :=
  {| proc := proc p; PID := PID p; Name := Name p; exe := v; cmdline := cmdline p |}.

Definition setCmdline (p : Process) (v : string) : Process :=
  {| proc := proc p; PID := PID p; Name := Name p; exe := exe p; cmdline := v |}.

Definition Exe (os : ProcessOS) (p : Process) (c : Calls)
  : (string + error) * Process * Calls :=
  if negb (String.eqb (exe p) "") then (inl (exe p), p, c)
  else
    match proc p with
    | None => (inr (Errors.New "process is nil"), p, c)
    | Some h =>
        let c' := {| exeCalls := S (exeCalls c); cmdlineCalls := cmdlineCalls c |} in
        match osExe os (Pid h) (exeCalls c) with
        | inr err => (inr err, p, c')
        | inl v => (inl v, setExe p v, c')
        end
    end.

Definition Cmdline (os : ProcessOS) (p : Process) (c : Calls)
  : (string + error) * Process * Calls :=
  if negb (String.eqb (cmdline p) "") then (inl (cmdline p), p, c)
  else
    match proc p with
    | None => (inr (Errors.New "process is nil"), p, c)
    | Some h =>
        let c' := {| exeCalls := exeCalls c; cmdlineCalls := S (cmdlineCalls c) |} in
        match osCmdline os (Pid h) (cmdlineCalls c) with
        | inr err => (inr err, p, c')
        | inl v => (inl v, setCmdline p v, c')
        end
    end.

(** Later uses of a handle: any sequence of calls of the two
    accessors. *)
Inductive Access := AccessExe | AccessCmdline.

Definition access (os : ProcessOS) (a : Access) (p : Process) (c : Calls)
  : (string + error) * Process * Calls :=
  match a with
  | AccessExe => Exe os p c
  | AccessCmdline => Cmdline os p c
  end.

Fixpoint accesses (os : ProcessOS) (l : list Access) (p : Process) (c : Calls)
  : Process * Calls :=
  match l with
  | [] => (p, c)
  | a :: rest =>
      let '(_, p', c') := access os a p c in
      accesses os rest p' c'
  end.

(** *** utils.OrderedMap *)

(** Modelled from the spec: [utils.OrderedMap] is in the [utils] package,
    not among the sources; the spec describes an "ordered mapping from
    process id to ProcessHandle (insertion order preserved for
    deterministic iteration)" with unique ids.  The model is a list of
    bindings in insertion order; [Set] overwrites a present key in place
    and appends an absent one. *)
Module OrderedMap.
Definition t : Type := list (Z * Process).

Definition New : t := [].
Definition Len (m : t) : nat := List.length m.
Definition Keys (m : t) : list Z := map fst m.

Fixpoint Set_ (m : t) (k : Z) (v : Process) : t :=
  match m with
  | [] => [(k, v)]
  | (k', v') :: rest =>
      if Z.eqb k' k then (k, v) :: rest else (k', v') :: Set_ rest k v
  end.

Definition Delete (m : t) (k : Z) : t :=
  filter (fun kv => negb (Z.eqb (fst kv) k)) m.
End OrderedMap.

(** *** The process monitor *)

(** The calls made to the operating system, in order. *)
Inductive Call :=
| CallPidExists (pid : Z)
| CallProcesses
| CallReadFile (path : string).

(** The operating system as one call of the monitor sees it. *)
Record OS := {
  PidExistsWithContext : Z -> bool + error;                 (* process.PidExistsWithContext *)
  ProcessesWithContext : list process_Process + error;      (* process.ProcessesWithContext *)
  ReadFile : string -> string + error;           (* os.ReadFile *)
  Now : Z                                        (* time.Now, in nanoseconds *)
}.

Record ProcessMonitor := {
  Processes : OrderedMap.t;
  lastSync : Z;
  name : string;
  disablePidCaching : bool
}.

Definition NewProcessMonitor (name : string) (disablePidCaching : bool) : ProcessMonitor :=
  {| Processes := OrderedMap.New; lastSync := 0; name := name;
     disablePidCaching := disablePidCaching |}.

Definition newline : string := String "010" EmptyString.
Definition nul : string := String "000" EmptyString.
Definition second : Z := 1000000000.

Definition getProcName (os : OS) (p : process_Process) : (string + error) * list Call :=
  let statPath := Filepath.Join ["/proc"; Strconv.Itoa (Pid p); "comm"] in
  match ReadFile os statPath with
  | inr err => (inr err, [CallReadFile statPath])
  | inl contents => (inl (Strings.TrimSuffix contents newline), [CallReadFile statPath])
  end.

Definition getProcCmdline (os : OS) (p : process_Process) : (string + error) * list Call :=
  let cmdlinePath := Filepath.Join ["/proc"; Strconv.Itoa (Pid p); "cmdline"] in
  match ReadFile os cmdlinePath with
  | inr err => (inr err, [CallReadFile cmdlinePath])
  | inl data =>
      match Strings.Split data nul with
      | arg0 :: _ => (inl arg0, [CallReadFile cmdlinePath])
      | [] => (inr (Errors.New "cmdline is empty"), [CallReadFile cmdlinePath])
      end
  end.

Definition handle (p : process_Process) (nm : string) : Process :=
  {| proc := Some p; PID := Pid p; Name := nm; exe := ""; cmdline := "" |}.

(** The body of the scan loop for one enumerated process. *)
Definition scanOne (os : OS) (target : string) (ret : OrderedMap.t) (p : process_Process)
  : OrderedMap.t * list Call :=
  if (String.length target <=? 15)%nat then
    match getProcName os p with
    | (inr _, tr) => (ret, tr)
    | (inl procName, tr) =>
        if String.eqb procName target
        then (OrderedMap.Set_ ret (Pid p) (handle p procName), tr)
        else (ret, tr)
    end
  else
    match getProcCmdline os p with
    | (inr _, tr) => (ret, tr)
    | (inl cmd, tr) =>
        if String.eqb cmd "" then (ret, tr)
        else if String.eqb (Filepath.Base cmd) target
        then (OrderedMap.Set_ ret (Pid p) (handle p (Filepath.Base cmd)), tr)
        else if String.eqb cmd target
        then (OrderedMap.Set_ ret (Pid p) (handle p cmd), tr)
        else (ret, tr)
    end.

Fixpoint scan (os : OS) (target : string) (ret : OrderedMap.t) (procs : list process_Process)
  : OrderedMap.t * list Call :=
  match procs with
  | [] => (ret, [])
  | p :: rest =>
      let '(ret', tr) := scanOne os target ret p in
      let '(ret'', tr') := scan os target ret' rest in
      (ret'', tr ++ tr')
  end.

(** The first loop of a sync: cached ids whose process is gone, or whose
    liveness cannot be read, are deleted. *)
Fixpoint purge (os : OS) (m : OrderedMap.t) (pids : list Z) : OrderedMap.t * list Call :=
  match pids with
  | [] => (m, [])
  | pid :: rest =>
      let m' :=
        match PidExistsWithContext os pid with
        | inl true => m
        | _ => OrderedMap.Delete m pid
        end in
      let '(m'', tr) := purge os m' rest in
      (m'', CallPidExists pid :: tr)
  end.

(** The result of [GetProcessesWithContext]: the returned mapping ([None]
    for nil) and error, the monitor afterwards, and the calls made to the
    operating system.  Logging has no effect on any of them. *)
Record GetResult := {
  returned : option OrderedMap.t;
  err : option error;
  monitor : ProcessMonitor;
  calls : list Call
}.

Definition sync (os : OS) (p : ProcessMonitor) : GetResult :=
  let '(purged, tr1) := purge os (Processes p) (OrderedMap.Keys (Processes p)) in
  let p1 := {| Processes := purged; lastSync := lastSync p; name := name p;
               disablePidCaching := disablePidCaching p |} in
  match ProcessesWithContext os with
  | inr e =>
      {| returned := None;
         err := Errors.Join [Some (Errors.New "failed to get processes"); Some e];
         monitor := p1;
         calls := tr1 ++ [CallProcesses] |}
  | inl procs =>
      let '(ret, tr2) := scan os (name p) OrderedMap.New procs in
      {| returned := Some ret;
         err := None;
         monitor := {| Processes := ret; lastSync := Now os; name := name p;
                       disablePidCaching := disablePidCaching p |};
         calls := tr1 ++ [CallProcesses] ++ tr2 |}
  end.

Definition GetProcessesWithContext (os : OS) (p : ProcessMonitor) : GetResult :=
  if (0 <? OrderedMap.Len (Processes p))%nat then
    if negb (disablePidCaching p) then
      if (lastSync p + 10 * second <? Now os)%Z then
        {| returned := Some (Processes p); err := None; monitor := p; calls := [] |}
      else
        {| returned := Some (Processes p); err := None; monitor := p; calls := [] |}
    else sync os p
  else sync os p.

(** *** The matching rule, in the spec's words *)

(** The process name the OS keeps (at most 15 bytes), without the
    trailing newline; [None] when it cannot be read. *)
Definition commName (os : OS) (p : process_Process) : option string :=
  match ReadFile os (Filepath.Join ["/proc"; Strconv.Itoa (Pid p); "comm"]) with
  | inl contents => Some (Strings.TrimSuffix contents newline)
  | inr _ => None
  end.

(** The first NUL-separated argument of the command line. *)
Definition firstArg (os : OS) (p : process_Process) : option string :=
  match ReadFile os (Filepath.Join ["/proc"; Strconv.Itoa (Pid p); "cmdline"]) with
  | inl data => hd_error (Strings.Split data nul)
  | inr _ => None
  end.

Definition matchesTarget (os : OS) (target : string) (p : process_Process) : Prop :=
  if (String.length target <=? 15)%nat then commName os p = Some target
  else exists arg, firstArg os p = Some arg /\ arg <> "" /\
                   (Filepath.Base arg = target \/ arg = target).

(** The per-process lookup the scan makes for [target] fails. *)
Definition lookupFails (os : OS) (target : string) (p : process_Process) : bool :=
  if (String.length target <=? 15)%nat then
    match ReadFile os (Filepath.Join ["/proc"; Strconv.Itoa (Pid p); "comm"]) with
    | inl _ => false
    | inr _ => true
    end
  else
    match ReadFile os (Filepath.Join ["/proc"; Strconv.Itoa (Pid p); "cmdline"]) with
    | inl _ => false
    | inr _ => true
    end.

(** A full resynchronization is made: the cache is empty or caching is
    disabled. *)
Definition resyncs (p : ProcessMonitor) : Prop :=
  OrderedMap.Len (Processes p) = 0%nat \/ disablePidCaching p = true.

(** *** ReadCPUStats *)

(** gopsutil's [cpu.TimesStat], with the fields the code reads. *)
Record TimesStat := {
  tsCPU : string;
  tsUser : float;
  tsSystem : float;
  tsIdle : float;
  tsNice : float;
  tsIowait : float;
  tsIrq : float;
  tsSoftirq : float;
  tsSteal : float
}.

(** A Go [map[string]CPUCoreStats], by what a lookup gives. *)
Definition StatsMap : Type := string -> option CPUCoreStats.

Definition emptyStatsMap : StatsMap := fun _ => None.

Definition statsMapSet (m : StatsMap) (k : string) (v : CPUCoreStats) : StatsMap :=
  fun k' => if String.eqb k' k then Some v else m k'.

(** [CPUCoreStats{}]. *)
Definition zeroStats : CPUCoreStats :=
  {| User := 0; Nice := 0; System := 0; Idle := 0;
     IOWait := 0; IRQ := 0; SoftIRQ := 0; Steal := 0 |}.

Definition coreStatsOf (stat : TimesStat) : CPUCoreStats :=
  {| User := tsUser stat; Nice := tsNice stat; System := tsSystem stat;
     Idle := tsIdle stat; IOWait := tsIowait stat; IRQ := tsIrq stat;
     SoftIRQ := tsSoftirq stat; Steal := tsSteal stat |}.

Definition addToTotal (totalStats : CPUCoreStats) (stat : TimesStat) : CPUCoreStats :=
  {| User := (User totalStats + tsUser stat)%float;
     Nice := (Nice totalStats + tsNice stat)%float;
     System := (System totalStats + tsSystem stat)%float;
     Idle := (Idle totalStats + tsIdle stat)%float;
     IOWait := (IOWait totalStats + tsIowait stat)%float;
     IRQ := (IRQ totalStats + tsIrq stat)%float;
     SoftIRQ := (SoftIRQ totalStats + tsSoftirq stat)%float;
     Steal := (Steal totalStats + tsSteal stat)%float |}.

Fixpoint readLoop (rawStats : list TimesStat) (stats : StatsMap) (totalStats : CPUCoreStats)
  : StatsMap * CPUCoreStats :=
  match rawStats with
  | [] => (stats, totalStats)
  | stat :: rest =>
      readLoop rest (statsMapSet stats (tsCPU stat) (coreStatsOf stat))
               (addToTotal totalStats stat)
  end.

(** [ReadCPUStats], given what [cpu.Times(true)] returns. *)
Definition ReadCPUStats (times : list TimesStat + error) : option StatsMap * option error :=
  match times with
  | inr e => (None, Some e)
  | inl rawStats =>
      let '(stats, totalStats) := readLoop rawStats emptyStatsMap zeroStats in
      (Some (statsMapSet stats "cpu" totalStats), None)
  end.

(** *** Auxiliary definitions for the monitor *)

(** The matching rule as a test. *)
Definition matchesb (os : OS) (target : string) (p : process_Process) : bool :=
  if (String.length target <=? 15)%nat then
    match commName os p with
    | Some n => String.eqb n target
    | None => false
    end
  else
    match firstArg os p with
    | Some arg =>
        negb (String.eqb arg "") &&
        (String.eqb (Filepath.Base arg) target || String.eqb arg target)
    | None => false
    end.

(** The file the scan reads for a process. *)
Definition lookupPath (target : string) (p : process_Process) : string :=
  if (String.length target <=? 15)%nat
  then Filepath.Join ["/proc"; Strconv.Itoa (Pid p); "comm"]
  else Filepath.Join ["/proc"; Strconv.Itoa (Pid p); "cmdline"].

(** The process is alive as the purge sees it. *)
Definition alive (os : OS) (pid : Z) : bool :=
  match PidExistsWithContext os pid with
  | inl true => true
  | _ => false
  end.

(** A handle as the scan builds it for [target]. *)
Definition freshHandle (target : string) (kv : Z * Process) : Prop :=
  PID (snd kv) = fst kv /\
  proc (snd kv) = Some {| Pid := fst kv |} /\
  Name (snd kv) = target /\
  exe (snd kv) = "" /\
  cmdline (snd kv) = "".

(** Successive calls of [GetProcessesWithContext], one per state of the
    operating system, each on the monitor the previous call left. *)
Fixpoint getAll (oss : list OS) (p : ProcessMonitor) : list GetResult :=
  match oss with
  | [] => []
  | os :: rest =>
      let r := GetProcessesWithContext os p in
      r :: getAll rest (monitor r)
  end.

End Sensors.

(** ** The wifi monitor backends *)

Module Wifimonitor.
Local Open Scope string_scope.
Local Open Scope list_scope.

Definition newline : string := String "010" EmptyString.

(** Modelled from the spec: the declaration of [networkStatus] is not among
    the sources.  The fields are those the parsers assign, with the types
    of the values assigned; the spec lists them as network name, signal
    strength, transmit and receive rates and the optional enrichment
    fields, zero-valued when a backend cannot supply them. *)
Record networkStatus := {
  NetworkName : string;
  SignalStrength : Z;
  TxSpeedMbps : float;
  RxSpeedMbps : float;
  FrequencyMHz : Z;
  TxRetries : Z;
  TxFailed : Z;
  BeaconSignalAvg : Z;
  ConnectedTimeSec : Z;
  InactiveTimeMs : Z
}.

(** [&networkStatus{}]: every field at its zero value. *)
Definition zeroStatus : networkStatus :=
  {| NetworkName := ""; SignalStrength := 0; TxSpeedMbps := 0; RxSpeedMbps := 0;
     FrequencyMHz := 0; TxRetries := 0; TxFailed := 0; BeaconSignalAvg := 0;
     ConnectedTimeSec := 0; InactiveTimeMs := 0 |}.

Definition withNetworkName (st : networkStatus) (v : string) : networkStatus :=
  {| NetworkName := v; SignalStrength := SignalStrength st;
     TxSpeedMbps := TxSpeedMbps st; RxSpeedMbps := RxSpeedMbps st;
     FrequencyMHz := FrequencyMHz st; TxRetries := TxRetries st;
     TxFailed := TxFailed st; BeaconSignalAvg := BeaconSignalAvg st;
     ConnectedTimeSec := ConnectedTimeSec st; InactiveTimeMs := InactiveTimeMs st |}.

Definition withSignalStrength (st : networkStatus) (v : Z) : networkStatus :=
  {| NetworkName := NetworkName st; SignalStrength := v;
     TxSpeedMbps := TxSpeedMbps st; RxSpeedMbps := RxSpeedMbps st;
     FrequencyMHz := FrequencyMHz st; TxRetries := TxRetries st;
     TxFailed := TxFailed st; BeaconSignalAvg := BeaconSignalAvg st;
     ConnectedTimeSec := ConnectedTimeSec st; InactiveTimeMs := InactiveTimeMs st |}.

Definition withTxSpeedMbps (st : networkStatus) (v : float) : networkStatus :=
  {| NetworkName := NetworkName st; SignalStrength := SignalStrength st;
     TxSpeedMbps := v; RxSpeedMbps := RxSpeedMbps st;
     FrequencyMHz := FrequencyMHz st; TxRetries := TxRetries st;
     TxFailed := TxFailed st; BeaconSignalAvg := BeaconSignalAvg st;
     ConnectedTimeSec := ConnectedTimeSec st; InactiveTimeMs := InactiveTimeMs st |}.

Definition withRxSpeedMbps (st : networkStatus) (v : float) : networkStatus :=
  {| NetworkName := NetworkName st; SignalStrength := SignalStrength st;
     TxSpeedMbps := TxSpeedMbps st; RxSpeedMbps := v;
     FrequencyMHz := FrequencyMHz st; TxRetries := TxRetries st;
     TxFailed := TxFailed st; BeaconSignalAvg := BeaconSignalAvg st;
     ConnectedTimeSec := ConnectedTimeSec st; InactiveTimeMs := InactiveTimeMs st |}.

Definition withFrequencyMHz (st : networkStatus) (v : Z) : networkStatus :=
  {| NetworkName := NetworkName st; SignalStrength := SignalStrength st;
     TxSpeedMbps := TxSpeedMbps st; RxSpeedMbps := RxSpeedMbps st;
     FrequencyMHz := v; TxRetries := TxRetries st;
     TxFailed := TxFailed st; BeaconSignalAvg := BeaconSignalAvg st;
     ConnectedTimeSec := ConnectedTimeSec st; InactiveTimeMs := InactiveTimeMs st |}.

(** *** Backend selection *)

Inductive WifiMonitor :=
| iwWifiMonitor (adapter : string)
| nmcliWifiMonitor (adapter : string)
| procWifiMonitor (adapter : string).

(** What construction asks of the system: [exec.LookPath] and [os.Stat]. *)
Record System := {
  LookPath : string -> string + error;
  Stat : string -> unit + error
}.

Definition newWifiMonitor (sys : System) (adapter : string) : option WifiMonitor :=
  match LookPath sys "iw" with
  | inl _ => Some (iwWifiMonitor adapter)
  | inr _ =>
      match LookPath sys "nmcli" with
      | inl _ => Some (nmcliWifiMonitor adapter)
      | inr _ =>
          match Stat sys "/proc/net/wireless" with
          | inl _ => Some (procWifiMonitor adapter)
          | inr _ => None
          end
      end
  end.

(** The selection policy in the spec's words: the backends in priority
    order, and the first one that is available. *)
Inductive Backend := BackendIw | BackendNmcli | BackendProc.

Definition priority : list Backend := [BackendIw; BackendNmcli; BackendProc].

Definition isOk {A : Type} (r : A + error) : bool :=
  match r with inl _ => true | inr _ => false end.

Definition available (sys : System) (b : Backend) : bool :=
  match b with
  | BackendIw => isOk (LookPath sys "iw")
  | BackendNmcli => isOk (LookPath sys "nmcli")
  | BackendProc => isOk (Stat sys "/proc/net/wireless")
  end.

Definition construct (adapter : string) (b : Backend) : WifiMonitor :=
  match b with
  | BackendIw => iwWifiMonitor adapter
  | BackendNmcli => nmcliWifiMonitor adapter
  | BackendProc => procWifiMonitor adapter
  end.

Definition firstAvailable (sys : System) : option Backend :=
  find (available sys) priority.

(** *** The parsers *)

Section Parsers.

(** [strconv.ParseFloat(s, 64)] and the conversion [int(f)] of a float64
    are the Go library's and runtime's; the parsers are modelled for any
    behaviour of the two. *)
Variable ParseFloat : string -> float + error.
Variable intOfFloat : float -> Z.

(** What [parseNetworkStatus] returns: the snapshot pointer ([None] for
    nil) and the error ([None] for nil). *)
Definition parsed : Type := option networkStatus * option error.

(** **** nmcli *)

Fixpoint nmcliLines (adapter : string) (lines : list string) (adapterFound : bool)
  : outcome parsed :=
  match lines with
  | [] =>
      if negb adapterFound then Ret (None, Some ErrAdapterNotFound)
      else Ret (None, Some ErrNotConnected)
  | line :: rest =>
      if negb (Strings.HasSuffix line adapter) then nmcliLines adapter rest adapterFound
      else if Strings.HasPrefix line "yes:" then
        let col := Strings.Split line ":" in
        col6 <- index col 6 ;;
        let '(signalStrength, e) :=
          match Strconv.Atoi col6 with
          | inl n => (n, None)
          | inr err => (-1, Errors.Join [None; Some err])
          end in
        col5 <- index col 5 ;;
        tok <- index (Strings.Split col5 " ") 0 ;;
        let '(linkSpeed, e) :=
          match ParseFloat tok with
          | inl f => (f, e)
          | inr err => ((-1)%float, Errors.Join [e; Some err])
          end in
        col2 <- index col 2 ;;
        Ret (Some {| NetworkName := col2;
                     SignalStrength := GoInt.mul (-1) signalStrength;
                     TxSpeedMbps := linkSpeed;
                     RxSpeedMbps := 0; FrequencyMHz := 0; TxRetries := 0;
                     TxFailed := 0; BeaconSignalAvg := 0;
                     ConnectedTimeSec := 0; InactiveTimeMs := 0 |}, e)
      else nmcliLines adapter rest true
  end.

Definition nmcli_parseNetworkStatus (adapter out : string) : outcome parsed :=
  nmcliLines adapter (Strings.Split out newline) false.

(** **** iw *)

Definition iwLine (acc : networkStatus * option error) (line0 : string)
  : outcome (networkStatus * option error) :=
  let '(status, e) := acc in
  let line := Strings.TrimSpace line0 in
  if Strings.HasPrefix line "SSID:" then
    col1 <- index (Strings.Split line ":") 1 ;;
    Ret (withNetworkName status (Strings.TrimSpace col1), e)
  else if Strings.HasPrefix line "freq:" then
    col1 <- index (Strings.Split line ":") 1 ;;
    match ParseFloat (Strings.TrimSpace col1) with
    | inr err => Ret (status, Errors.Join [e; Some err])
    | inl freq => Ret (withFrequencyMHz status (intOfFloat freq), e)
    end
  else if Strings.HasPrefix line "signal:" then
    col1 <- index (Strings.Split line ":") 1 ;;
    match Strconv.Atoi (Strings.TrimSuffix (Strings.TrimSpace col1) " dBm") with
    | inr err => Ret (withSignalStrength status (-1), Errors.Join [e; Some err])
    | inl n => Ret (withSignalStrength status n, e)
    end
  else if Strings.HasPrefix line "rx bitrate:" then
    col1 <- index (Strings.Split line ":") 1 ;;
    tok <- index (Strings.Split col1 " ") 1 ;;
    match ParseFloat tok with
    | inr err => Ret (withRxSpeedMbps status (-1)%float, Errors.Join [e; Some err])
    | inl f => Ret (withRxSpeedMbps status f, e)
    end
  else if Strings.HasPrefix line "tx bitrate:" then
    col1 <- index (Strings.Split line ":") 1 ;;
    tok <- index (Strings.Split col1 " ") 1 ;;
    match ParseFloat tok with
    | inr err => Ret (withTxSpeedMbps status (-1)%float, Errors.Join [e; Some err])
    | inl f => Ret (withTxSpeedMbps status f, e)
    end
  else Ret (status, e).

Fixpoint iwLines (acc : networkStatus * option error) (lines : list string)
  : outcome (networkStatus * option error) :=
  match lines with
  | [] => Ret acc
  | line :: rest => acc' <- iwLine acc line ;; iwLines acc' rest
  end.

Definition iw_parseNetworkStatus (out : string) : outcome parsed :=
  if Strings.Contains out "Not connected" then Ret (None, Some ErrNotConnected)
  else if Strings.Contains out "No such device" then Ret (None, Some ErrAdapterNotFound)
  else
    acc <- iwLines (zeroStatus, None) (Strings.Split out newline) ;;
    Ret (Some (fst acc), snd acc).

(** **** /proc/net/wireless *)

Fixpoint procLines (adapter : string) (lines : list string) : outcome parsed :=
  match lines with
  | [] => Ret (None, Some ErrAdapterNotFound)
  | line0 :: rest =>
      let line := Strings.TrimSpace line0 in
      if Strings.HasPrefix line adapter then
        let col := Strings.Fields line in
        col3 <- index col 3 ;;
        match Strconv.Atoi (Strings.TrimSuffix col3 ".") with
        | inr err => Ret (None, Some err)
        | inl signalStrength =>
            col2 <- index col 2 ;;
            match ParseFloat col2 with
            | inr err => Ret (None, Some err)
            | inl linkSpeed =>
                Ret (Some {| NetworkName := "unknown";
                             SignalStrength := signalStrength;
                             TxSpeedMbps := linkSpeed;
                             RxSpeedMbps := 0; FrequencyMHz := 0; TxRetries := 0;
                             TxFailed := 0; BeaconSignalAvg := 0;
                             ConnectedTimeSec := 0; InactiveTimeMs := 0 |}, None)
            end
        end
      else procLines adapter rest
  end.

Definition proc_parseNetworkStatus (adapter out : string) : outcome parsed :=
  procLines adapter (Strings.Split out newline).

End Parsers.

(** *** Station dump *)

Definition withTxRetries (st : networkStatus) (v : Z) : networkStatus :=
  {| NetworkName := NetworkName st; SignalStrength := SignalStrength st;
     TxSpeedMbps := TxSpeedMbps st; RxSpeedMbps := RxSpeedMbps st;
     FrequencyMHz := FrequencyMHz st; TxRetries := v;
     TxFailed := TxFailed st; BeaconSignalAvg := BeaconSignalAvg st;
     ConnectedTimeSec := ConnectedTimeSec st; InactiveTimeMs := InactiveTimeMs st |}.

Definition withTxFailed (st : networkStatus) (v : Z) : networkStatus :=
  {| NetworkName := NetworkName st; SignalStrength := SignalStrength st;
     TxSpeedMbps := TxSpeedMbps st; RxSpeedMbps := RxSpeedMbps st;
     FrequencyMHz := FrequencyMHz st; TxRetries := TxRetries st;
     TxFailed := v; BeaconSignalAvg := BeaconSignalAvg st;
     ConnectedTimeSec := ConnectedTimeSec st; InactiveTimeMs := InactiveTimeMs st |}.

Definition withBeaconSignalAvg (st : networkStatus) (v : Z) : networkStatus :=
  {| NetworkName := NetworkName st; SignalStrength := SignalStrength st;
     TxSpeedMbps := TxSpeedMbps st; RxSpeedMbps := RxSpeedMbps st;
     FrequencyMHz := FrequencyMHz st; TxRetries := TxRetries st;
     TxFailed := TxFailed st; BeaconSignalAvg := v;
     ConnectedTimeSec := ConnectedTimeSec st; InactiveTimeMs := InactiveTimeMs st |}.

Definition withConnectedTimeSec (st : networkStatus) (v : Z) : networkStatus :=
  {| NetworkName := NetworkName st; SignalStrength := SignalStrength st;
     TxSpeedMbps := TxSpeedMbps st; RxSpeedMbps := RxSpeedMbps st;
     FrequencyMHz := FrequencyMHz st; TxRetries := TxRetries st;
     TxFailed := TxFailed st; BeaconSignalAvg := BeaconSignalAvg st;
     ConnectedTimeSec := v; InactiveTimeMs := InactiveTimeMs st |}.

Definition withInactiveTimeMs (st : networkStatus) (v : Z) : networkStatus :=
  {| NetworkName := NetworkName st; SignalStrength := SignalStrength st;
     TxSpeedMbps := TxSpeedMbps st; RxSpeedMbps := RxSpeedMbps st;
     FrequencyMHz := FrequencyMHz st; TxRetries := TxRetries st;
     TxFailed := TxFailed st; BeaconSignalAvg := BeaconSignalAvg st;
     ConnectedTimeSec := ConnectedTimeSec st; InactiveTimeMs := v |}.

(** An assignment [status.f = val] through the pointer: a nil pointer
    panics. *)
Definition assign (status : option networkStatus)
           (set : networkStatus -> Z -> networkStatus) (val : Z)
  : outcome (option networkStatus) :=
  match status with
  | None => Panic "nil pointer dereference"
  | Some st => Ret (Some (set st val))
  end.

(** The value of a station-dump line, [col[1]] trimmed and without its
    unit, stored with [set] when it is an integer. *)
Definition stationField (status : option networkStatus) (line unit : string)
           (set : networkStatus -> Z -> networkStatus)
  : outcome (option networkStatus) :=
  col1 <- index (Strings.Split line ":") 1 ;;
  match Strconv.Atoi (Strings.TrimSuffix (Strings.TrimSpace col1) unit) with
  | inl val => assign status set val
  | inr _ => Ret status
  end.

Definition stationLine (status : option networkStatus) (line0 : string)
  : outcome (option networkStatus) :=
  let line := Strings.TrimSpace line0 in
  if Strings.HasPrefix line "tx retries:" then
    col1 <- index (Strings.Split line ":") 1 ;;
    match Strconv.Atoi (Strings.TrimSpace col1) with
    | inl val => assign status withTxRetries val
    | inr _ => Ret status
    end
  else if Strings.HasPrefix line "tx failed:" then
    col1 <- index (Strings.Split line ":") 1 ;;
    match Strconv.Atoi (Strings.TrimSpace col1) with
    | inl val => assign status withTxFailed val
    | inr _ => Ret status
    end
  else if Strings.HasPrefix line "beacon signal avg:" then
    stationField status line " dBm" withBeaconSignalAvg
  else if Strings.HasPrefix line "connected time:" then
    stationField status line " seconds" withConnectedTimeSec
  else if Strings.HasPrefix line "inactive time:" then
    stationField status line " ms" withInactiveTimeMs
  else Ret status.

Fixpoint stationLines (status : option networkStatus) (lines : list string)
  : outcome (option networkStatus) :=
  match lines with
  | [] => Ret status
  | line :: rest => status' <- stationLine status line ;; stationLines status' rest
  end.

Definition parseStationDump (out : string) (status : option networkStatus)
  : outcome (option networkStatus) :=
  stationLines status (Strings.Split out newline).

(** *** GetNetworkStatus *)

Section Commands.

(** What the backends ask of the system: [exec.Command(name, args...).Output()]
    by the command line, [os.ReadFile], and the text [err.Error()] of an
    error.  [ParseFloat] and [intOfFloat] are as for the parsers. *)
Variable run : list string -> string + error.
Variable readFile : string -> string + error.
Variable errorText : error -> string.
Variable ParseFloat : string -> float + error.
Variable intOfFloat : float -> Z.

Definition nmcli_GetNetworkStatus (adapter : string) : outcome parsed :=
  match run ["nmcli"; "-t"; "-f"; "ACTIVE,NAME,SSID,CHAN,FREQ,RATE,SIGNAL,DEVICE";
             "dev"; "wifi"] with
  | inr err => Ret (None, Some err)
  | inl out => nmcli_parseNetworkStatus ParseFloat adapter out
  end.

Definition enrichWithStationDump (adapter : string) (status : option networkStatus)
  : outcome (option networkStatus) :=
  match run ["iw"; "dev"; adapter; "station"; "dump"] with
  | inr _ => Ret status
  | inl out => parseStationDump out status
  end.

Definition iw_GetNetworkStatus (adapter : string) : outcome parsed :=
  match run ["iw"; "dev"; adapter; "link"] with
  | inr err =>
      if String.eqb (errorText err) "exit status 237"
      then Ret (None, Some ErrAdapterNotFound)
      else Ret (None, Some err)
  | inl out =>
      r <- iw_parseNetworkStatus ParseFloat intOfFloat out ;;
      match r with
      | (_, Some err) => Ret (None, Some err)
      | (status, None) =>
          status' <- enrichWithStationDump adapter status ;;
          Ret (status', None)
      end
  end.

Definition proc_GetNetworkStatus (adapter : string) : outcome parsed :=
  match readFile "/proc/net/wireless" with
  | inr err => Ret (None, Some err)
  | inl out => proc_parseNetworkStatus ParseFloat adapter out
  end.

(** [GetNetworkStatus] through the [WifiMonitor] interface. *)
Definition GetNetworkStatus (w : WifiMonitor) : outcome parsed :=
  match w with
  | iwWifiMonitor adapter => iw_GetNetworkStatus adapter
  | nmcliWifiMonitor adapter => nmcli_GetNetworkStatus adapter
  | procWifiMonitor adapter => proc_GetNetworkStatus adapter
  end.

End Commands.

End Wifimonitor.

(** * Examples and auxiliary predicates *)

Import Sensors.
Import Wifimonitor.
Local Open Scope string_scope.
Local Open Scope list_scope.
Local Open Scope Z_scope.

(** A system with two processes, of which pid 7 is [sshd] and pid 8 cannot
    be read. *)
Definition sshd_os : OS :=
  {| PidExistsWithContext := fun _ => inl true;
     ProcessesWithContext := inl [ {| Pid := 7 |}; {| Pid := 8 |} ];
     ReadFile := fun path =>
       if String.eqb path "/proc/7/comm" then inl ("sshd" ++ Sensors.newline)%string
       else inr (ErrorString "no such file");
     Now := 5 |}.

(** A monitor that has [sshd] cached. *)
Definition cached_monitor : ProcessMonitor :=
  {| Processes := [(7, handle {| Pid := 7 |} "sshd")];
     lastSync := 0; name := "sshd"; disablePidCaching := false |}.

(** A process whose executable path and command line are always known. *)
Definition sshd_handle_os : ProcessOS :=
  {| osExe := fun _ _ => inl "/usr/sbin/sshd";
     osCmdline := fun _ _ => inl "sshd -D" |}.

(** A process whose command line reads as empty at first (a kernel thread,
    or a process caught before its exec) and as ["/sbin/init"] later. *)
Definition late_cmdline_os : ProcessOS :=
  {| osExe := fun _ _ => inr (ErrorString "readlink: no such file");
     osCmdline := fun _ n => match n with O => inl "" | S _ => inl "/sbin/init" end |}.

(** A stand-in for [strconv.ParseFloat] on the examples: it reads plain
    unsigned decimal integers and rejects everything else. *)
Definition sampleParseFloat (s : string) : float + error :=
  match Strconv.Atoi s with
  | inl n =>
      if 0 <=? n then inl (PrimFloat.of_uint63 (Uint63.of_Z n))
      else inr (NumError "ParseFloat" s ErrSyntax)
  | inr _ => inr (NumError "ParseFloat" s ErrSyntax)
  end.

(** Two rows of [nmcli -t] for the adapter, the second one active. *)
Definition nmcli_sample : string :=
  "no:Guest:Guest:1:2412 MHz:54 Mbit/s:40:wlan0" ++ Wifimonitor.newline ++
  "yes:Home:Home:6:2437 MHz:130 Mbit/s:82:wlan0" ++ Wifimonitor.newline.

(** A value below zero: a negative finite number or minus infinity. *)
Definition strictlyNegative (x : spec_float) : bool :=
  match x with
  | S754_finite true _ _ => true
  | S754_infinity true => true
  | _ => false
  end.

(** After [j] one-bit shifts of [M] the record holds the quotient by 2^j,
    and its two extra bits are clear when the division is exact. *)
Definition shifted (M j : Z) (r : shr_record) : Prop :=
  0 <= shr_m r /\
  shr_m r * 2 ^ j <= M < (shr_m r + 1) * 2 ^ j /\
  (M = shr_m r * 2 ^ j -> shr_r r = false /\ shr_s r = false).

(** A value of at most 10000: a zero, or a positive [m * 2^e] with
    [e <= -39] and [m <= 10000 * 2^(-e)].  (10000 itself is
    [5497558138880000 * 2^(-39)].) *)
Definition atMost10000 (x : spec_float) : Prop :=
  match x with
  | S754_zero _ => True
  | S754_finite false m e => e <= -39 /\ Z.pos m <= 10000 * 2 ^ (- e)
  | _ => False
  end.



(** The number of occurrences of a byte in a string. *)
Fixpoint countByte (c : ascii) (s : string) : nat :=
  match s with
  | EmptyString => 0%nat
  | String d t => ((if Ascii.eqb d c then 1 else 0) + countByte c t)%nat
  end.

(** The text before the first occurrence of a byte (all of it when the
    byte does not occur). *)
Fixpoint beforeByte (c : ascii) (s : string) : string :=
  match s with
  | EmptyString => EmptyString
  | String d t => if Ascii.eqb d c then EmptyString else String d (beforeByte c t)
  end.

(** How many of the accesses are calls of [Exe]. *)
Definition exeAccesses (l : list Access) : nat :=
  List.length (filter (fun a => match a with AccessExe => true | AccessCmdline => false end) l).

(** A handle whose process is gone: every lookup fails. *)
Definition gone_os : ProcessOS :=
  {| osExe := fun _ _ => inr (ErrorString "no such process");
     osCmdline := fun _ _ => inr (ErrorString "no such process") |}.

(** A system where only pid 7 is alive and the processes cannot be
    enumerated. *)
Definition failing_os : OS :=
  {| PidExistsWithContext := fun pid => inl (Z.eqb pid 7);
     ProcessesWithContext := inr (ErrorString "too many open files");
     ReadFile := fun _ => inr (ErrorString "no such file");
     Now := 9 |}.

(** A monitor with pid caching disabled and two processes cached. *)
Definition refreshing_monitor : ProcessMonitor :=
  {| Processes := [(7, handle {| Pid := 7 |} "sshd"); (8, handle {| Pid := 8 |} "sshd")];
     lastSync := 0; name := "sshd"; disablePidCaching := true |}.

(** The first line the nmcli parser treats as the active row of the
    adapter. *)
Definition firstActive (adapter : string) (lines : list string) : option string :=
  find (fun l => Strings.HasSuffix l adapter && Strings.HasPrefix l "yes:") lines.

(** The first line the /proc/net/wireless parser takes for the adapter. *)
Definition firstRow (adapter : string) (lines : list string) : option string :=
  find (fun l => Strings.HasPrefix (Strings.TrimSpace l) adapter) lines.

(** A line on which the iw parser indexes past the end: a bitrate line
    whose value, the text between the first and the second colon, holds no
    space. *)
Definition shortBitrateLine (line0 : string) : bool :=
  let line := Strings.TrimSpace line0 in
  (Strings.HasPrefix line "rx bitrate:" || Strings.HasPrefix line "tx bitrate:") &&
  (countByte " " (nth 1 (Strings.Split line ":") "") =? 0)%nat.

(** The result of a parser or of [GetNetworkStatus] is not (nil, nil). *)
Definition notNilNil (r : outcome parsed) : Prop :=
  match r with
  | Ret (None, None) => False
  | _ => True
  end.

(** Two snapshots agree on the fields of the link: name, signal strength,
    rates and frequency. *)
Definition sameLink (a b : networkStatus) : Prop :=
  NetworkName b = NetworkName a /\
  SignalStrength b = SignalStrength a /\
  TxSpeedMbps b = TxSpeedMbps a /\
  RxSpeedMbps b = RxSpeedMbps a /\
  FrequencyMHz b = FrequencyMHz a.

(** A system where [iw] reports a link and no other command can be run. *)
Definition sample_run (args : list string) : string + error :=
  match args with
  | ["iw"; "dev"; "wlan0"; "link"] =>
      inl ("Connected to 00:11:22:33:44:55 (on wlan0)" ++ Wifimonitor.newline ++
           "SSID: Home" ++ Wifimonitor.newline ++
           "signal: -52 dBm" ++ Wifimonitor.newline)%string
  | _ => inr (ErrorString "exit status 1")
  end.

(** The text of an error, for the errors of the examples. *)
Definition sample_errorText (e : error) : string :=
  match e with
  | ErrorString msg => msg
  | _ => ""
  end.

(** A row of [nmcli -t] whose SIGNAL column is no number. *)
Definition nmcli_bad_signal : string :=
  "yes:Home:Home:6:2437 MHz:130 Mbit/s:n/a:wlan0" ++ Wifimonitor.newline.

(** The kernel's wireless statistics file with one adapter; the link
    quality column reads "70", which [sampleParseFloat] accepts. *)
Definition proc_sample : string :=
  "Inter-| sta-|   Quality        |   Discrete packets" ++ Wifimonitor.newline ++
  " face | tus | link level noise |  nwid  crypt" ++ Wifimonitor.newline ++
  " wlan0: 0000   70  -40.  -256        0      0" ++ Wifimonitor.newline.

(** * Properties *)

(** ** The process monitor *)

Section ProcessMonitorFacts.

Variable os : OS.

Lemma get_resyncs (p : ProcessMonitor) :
  resyncs p -> GetProcessesWithContext os p = sync os p.
Proof.
  unfold resyncs, GetProcessesWithContext.
  intros [Hlen | Hdis].
  - rewrite Hlen. reflexivity.
  - rewrite Hdis. simpl. destruct (0 <? _)%nat; reflexivity.
Qed.

Lemma keys_Set (m : OrderedMap.t) (k : Z) (v : Process) (x : Z) :
  In x (OrderedMap.Keys (OrderedMap.Set_ m k v)) <-> x = k \/ In x (OrderedMap.Keys m).
Proof.
  induction m as [| [k' v'] rest IH]; simpl.
  - intuition.
  - destruct (Z.eqb_spec k' k) as [-> | Hne]; simpl.
    + intuition.
    + unfold OrderedMap.Keys in IH. rewrite IH. intuition.
Qed.

(** One step of the scan adds the pid exactly when the process matches. *)
Lemma scanOne_keys (target : string) (ret : OrderedMap.t) (p : process_Process) (x : Z) :
  In x (OrderedMap.Keys (fst (scanOne os target ret p))) <->
  (x = Pid p /\ matchesTarget os target p) \/ In x (OrderedMap.Keys ret).
Proof.
  unfold scanOne, matchesTarget, getProcName, getProcCmdline, commName, firstArg.
  destruct (String.length target <=? 15)%nat.
  - destruct (ReadFile os _) as [contents | e]; simpl.
    + destruct (String.eqb_spec (Strings.TrimSuffix contents Sensors.newline) target) as [Heq | Hne]; simpl.
      * rewrite keys_Set, Heq. intuition.
      * split; [tauto |]. intros [[_ H] | H]; [| exact H].
        congruence.
    + split; [tauto |]. intros [[_ H] | H]; [discriminate | exact H].
  - destruct (ReadFile os _) as [data | e]; simpl.
    + destruct (Strings.Split data Sensors.nul) as [| arg0 args]; simpl.
      * split; [tauto |]. intros [[_ (a & H & _)] | H]; [discriminate | exact H].
      * destruct (String.eqb_spec arg0 "") as [He | Hne]; simpl.
        { split; [tauto |]. intros [[_ (a & H & Hn & _)] | H]; [| exact H].
          congruence. }
        destruct (String.eqb_spec (Filepath.Base arg0) target) as [Hb | Hnb]; simpl.
        { rewrite keys_Set. split.
          - intros [-> | H]; [left | tauto]. split; [reflexivity |].
            exists arg0. auto.
          - intros [[-> _] | H]; tauto. }
        destruct (String.eqb_spec arg0 target) as [Hc | Hnc]; simpl.
        { rewrite keys_Set. split.
          - intros [-> | H]; [left | tauto]. split; [reflexivity |].
            exists arg0. auto.
          - intros [[-> _] | H]; tauto. }
        split; [tauto |]. intros [[_ (a & H & _ & Hm)] | H]; [| exact H].
        injection H as <-. tauto.
    + split; [tauto |]. intros [[_ (a & H & _)] | H]; [discriminate | exact H].
Qed.

Lemma scan_keys (target : string) (procs : list process_Process) :
  forall (ret : OrderedMap.t) (x : Z),
    In x (OrderedMap.Keys (fst (scan os target ret procs))) <->
    (exists p, In p procs /\ Pid p = x /\ matchesTarget os target p) \/
    In x (OrderedMap.Keys ret).
Proof.
  induction procs as [| p rest IH]; intros ret x; simpl.
  - split; [tauto |]. intros [(p & [] & _) | H]; exact H.
  - pose proof (scanOne_keys target ret p x) as Hone.
    destruct (scanOne os target ret p) as [ret' tr] eqn:E1.
    specialize (IH ret' x).
    destruct (scan os target ret' rest) as [ret'' tr'] eqn:E2.
    simpl in *. rewrite IH, Hone. split.
    + intros [(q & Hq & Hpid & Hm) | [[-> Hm] | H]].
      * left. exists q. auto.
      * left. exists p. auto.
      * tauto.
    + intros [(q & [<- | Hq] & Hpid & Hm) | H].
      * right. left. auto.
      * left. exists q. auto.
      * tauto.
Qed.

(** A process whose lookup fails leaves the scan's mapping as it was. *)
Lemma scanOne_lookupFails (target : string) (ret : OrderedMap.t) (p : process_Process) :
  lookupFails os target p = true -> fst (scanOne os target ret p) = ret.
Proof.
  unfold lookupFails, scanOne, getProcName, getProcCmdline.
  destruct (String.length target <=? 15)%nat;
    destruct (ReadFile os _); intros H; try discriminate; reflexivity.
Qed.

Lemma scan_skips_failures (target : string) (procs : list process_Process) :
  forall ret : OrderedMap.t,
    fst (scan os target ret procs) =
    fst (scan os target ret (filter (fun p => negb (lookupFails os target p)) procs)).
Proof.
  induction procs as [| p rest IH]; intros ret; simpl; [reflexivity |].
  destruct (lookupFails os target p) eqn:Hf; simpl.
  - pose proof (scanOne_lookupFails target ret p Hf) as Hone.
    destruct (scanOne os target ret p) as [ret' tr]. simpl in Hone. subst ret'.
    specialize (IH ret).
    destruct (scan os target ret rest) as [r1 t1].
    destruct (scan os target ret (filter _ rest)) as [r2 t2].
    exact IH.
  - destruct (scanOne os target ret p) as [ret' tr].
    specialize (IH ret').
    destruct (scan os target ret' rest) as [r1 t1].
    destruct (scan os target ret' (filter _ rest)) as [r2 t2].
    exact IH.
Qed.

Lemma sync_ok (p : ProcessMonitor) (procs : list process_Process) :
  ProcessesWithContext os = inl procs ->
  let ret := fst (scan os (name p) OrderedMap.New procs) in
  returned (sync os p) = Some ret /\
  err (sync os p) = None /\
  Processes (monitor (sync os p)) = ret /\
  lastSync (monitor (sync os p)) = Now os.
Proof.
  intros Hp. unfold sync. rewrite Hp.
  destruct (purge os _ _) as [purged tr1].
  destruct (scan os (name p) OrderedMap.New procs) as [ret tr2].
  simpl. auto.
Qed.

Lemma sync_enumeration_fails (p : ProcessMonitor) (e : error) :
  ProcessesWithContext os = inr e ->
  returned (sync os p) = None /\
  err (sync os p) =
    Some (JoinError [ErrorString "failed to get processes"; e]) /\
  lastSync (monitor (sync os p)) = lastSync p.
Proof.
  intros Hp. unfold sync. rewrite Hp.
  destruct (purge os _ _) as [purged tr1].
  simpl. auto.
Qed.

End ProcessMonitorFacts.

(** C3: in a full resynchronization that enumerates the processes, a pid is
    in the returned mapping exactly when an enumerated process with that pid
    matches the target: by its [comm] name (trailing Sensors.newline stripped) for
    a target of at most 15 bytes, and otherwise by a non-empty first
    command-line argument whose base name, or which itself, equals the
    target. *)
Theorem resync_matches_by_length
  (os : OS) (p : ProcessMonitor) (procs : list process_Process) :
  resyncs p ->
  ProcessesWithContext os = inl procs ->
  exists ret,
    returned (GetProcessesWithContext os p) = Some ret /\
    forall pid,
      In pid (OrderedMap.Keys ret) <->
      exists q, In q procs /\ Pid q = pid /\ matchesTarget os (name p) q.
Proof.
  intros Hre Hp. rewrite (get_resyncs os p Hre).
  destruct (sync_ok os p procs Hp) as (Hret & _).
  eexists. split; [exact Hret |].
  intros pid. rewrite scan_keys. simpl. tauto.
Qed.

(** The hypotheses of C3 hold for a fresh monitor watching [sshd]. *)
Lemma resync_matches_by_length_witness :
  resyncs (NewProcessMonitor "sshd" false) /\
  ProcessesWithContext sshd_os = inl [ {| Pid := 7 |}; {| Pid := 8 |} ] /\
  exists ret,
    returned (GetProcessesWithContext sshd_os (NewProcessMonitor "sshd" false)) = Some ret /\
    forall pid,
      In pid (OrderedMap.Keys ret) <->
      exists q, In q [ {| Pid := 7 |}; {| Pid := 8 |} ] /\ Pid q = pid /\
                matchesTarget sshd_os "sshd" q.
Proof.
  split; [left; reflexivity |].
  split; [reflexivity |].
  apply (resync_matches_by_length sshd_os (NewProcessMonitor "sshd" false)
           [ {| Pid := 7 |}; {| Pid := 8 |} ]).
  - left. reflexivity.
  - reflexivity.
Defined.

(** C5: with a non-empty cache and pid caching enabled the cached mapping
    is returned as it is, the monitor is left unchanged and no call is made
    to the operating system, whatever the clock reads: both branches of the
    10-second comparison give this same result. *)
Theorem cached_returned_as_is (os : OS) (p : ProcessMonitor) :
  (0 < OrderedMap.Len (Processes p))%nat ->
  disablePidCaching p = false ->
  GetProcessesWithContext os p =
  {| returned := Some (Processes p); err := None; monitor := p; calls := [] |}.
Proof.
  intros Hlen Hdis. unfold GetProcessesWithContext.
  apply Nat.ltb_lt in Hlen. rewrite Hlen, Hdis. simpl.
  destruct (_ <? Now os)%Z; reflexivity.
Qed.

(** The hypotheses of C5 hold for a monitor with one cached process. *)
Lemma cached_returned_as_is_witness :
  GetProcessesWithContext sshd_os cached_monitor =
  {| returned := Some (Processes cached_monitor); err := None;
     monitor := cached_monitor; calls := [] |}.
Proof.
  apply (cached_returned_as_is sshd_os cached_monitor).
  - simpl. lia.
  - reflexivity.
Defined.

(** C8: in a full resynchronization a failure to enumerate the processes is
    returned wrapped, with a nil mapping and the sync time left as it was;
    when the enumeration succeeds the call returns no error whatever the
    per-process reads do, the mapping returned is the one the scan builds
    from the processes whose read succeeds (the others are skipped), and it
    replaces the cached mapping while the sync time becomes the current
    time. *)
Theorem resync_error_handling (os : OS) (p : ProcessMonitor) :
  resyncs p ->
  (forall e,
      ProcessesWithContext os = inr e ->
      returned (GetProcessesWithContext os p) = None /\
      err (GetProcessesWithContext os p) =
        Some (JoinError [ErrorString "failed to get processes"; e]) /\
      lastSync (monitor (GetProcessesWithContext os p)) = lastSync p) /\
  (forall procs,
      ProcessesWithContext os = inl procs ->
      let ret :=
        fst (scan os (name p) OrderedMap.New
               (filter (fun q => negb (lookupFails os (name p) q)) procs)) in
      err (GetProcessesWithContext os p) = None /\
      returned (GetProcessesWithContext os p) = Some ret /\
      Processes (monitor (GetProcessesWithContext os p)) = ret /\
      lastSync (monitor (GetProcessesWithContext os p)) = Now os).
Proof.
  intros Hre. rewrite (get_resyncs os p Hre). split.
  - intros e He. exact (sync_enumeration_fails os p e He).
  - intros procs Hp ret. subst ret.
    rewrite <- scan_skips_failures.
    destruct (sync_ok os p procs Hp) as (H1 & H2 & H3 & H4). auto.
Qed.

(** C8 on a fresh monitor: pid 8 cannot be read and is skipped, pid 7 is
    returned, and the call does not fail. *)
Lemma resync_error_handling_witness :
  returned (GetProcessesWithContext sshd_os (NewProcessMonitor "sshd" false))
  = Some [(7, handle {| Pid := 7 |} "sshd")] /\
  err (GetProcessesWithContext sshd_os (NewProcessMonitor "sshd" false)) = None.
Proof.
  assert (Hre : resyncs (NewProcessMonitor "sshd" false)) by (left; reflexivity).
  destruct (resync_error_handling sshd_os (NewProcessMonitor "sshd" false) Hre)
    as [_ Hok].
  destruct (Hok [ {| Pid := 7 |}; {| Pid := 8 |} ] eq_refl) as (He & Hr & _).
  split; [exact Hr | exact He].
Defined.

(** ** Process handles *)

Section Memo.

Variable os : ProcessOS.

Lemma access_exe_memo (a : Access) (p : Process) (c : Calls) :
  exe p <> "" ->
  exe (snd (fst (access os a p c))) = exe p /\
  exeCalls (snd (access os a p c)) = exeCalls c.
Proof.
  intros Hne. destruct a; simpl.
  - unfold Exe. destruct (String.eqb_spec (exe p) ""); [contradiction |].
    simpl. auto.
  - unfold Cmdline. destruct (negb _); [simpl; auto |].
    destruct (proc p); [| simpl; auto].
    destruct (osCmdline os _ _); simpl; auto.
Qed.

Lemma access_cmdline_memo (a : Access) (p : Process) (c : Calls) :
  cmdline p <> "" ->
  cmdline (snd (fst (access os a p c))) = cmdline p /\
  cmdlineCalls (snd (access os a p c)) = cmdlineCalls c.
Proof.
  intros Hne. destruct a; simpl.
  - unfold Exe. destruct (negb _); [simpl; auto |].
    destruct (proc p); [| simpl; auto].
    destruct (osExe os _ _); simpl; auto.
  - unfold Cmdline. destruct (String.eqb_spec (cmdline p) ""); [contradiction |].
    simpl. auto.
Qed.

Lemma accesses_exe_memo (l : list Access) :
  forall (p : Process) (c : Calls),
    exe p <> "" ->
    exe (fst (accesses os l p c)) = exe p /\
    exeCalls (snd (accesses os l p c)) = exeCalls c.
Proof.
  induction l as [| a rest IH]; intros p c Hne; simpl; [auto |].
  destruct (access_exe_memo a p c Hne) as [He Hc].
  destruct (access os a p c) as [[r p'] c']. simpl in He, Hc.
  destruct (IH p' c') as [He' Hc']; [congruence |].
  split; congruence.
Qed.

Lemma accesses_cmdline_memo (l : list Access) :
  forall (p : Process) (c : Calls),
    cmdline p <> "" ->
    cmdline (fst (accesses os l p c)) = cmdline p /\
    cmdlineCalls (snd (accesses os l p c)) = cmdlineCalls c.
Proof.
  induction l as [| a rest IH]; intros p c Hne; simpl; [auto |].
  destruct (access_cmdline_memo a p c Hne) as [He Hc].
  destruct (access os a p c) as [[r p'] c']. simpl in He, Hc.
  destruct (IH p' c') as [He' Hc']; [congruence |].
  split; congruence.
Qed.

Lemma Exe_stores (p : Process) (c : Calls) (v : string) (p1 : Process) (c1 : Calls) :
  Exe os p c = (inl v, p1, c1) -> exe p1 = v.
Proof.
  unfold Exe. destruct (String.eqb_spec (exe p) "") as [He | Hne]; simpl.
  - destruct (proc p); [| discriminate].
    destruct (osExe os _ _); [| discriminate].
    intros H. injection H as <- <- <-. reflexivity.
  - intros H. injection H as <- <- <-. reflexivity.
Qed.

Lemma Cmdline_stores (p : Process) (c : Calls) (v : string) (p1 : Process) (c1 : Calls) :
  Cmdline os p c = (inl v, p1, c1) -> cmdline p1 = v.
Proof.
  unfold Cmdline. destruct (String.eqb_spec (cmdline p) "") as [He | Hne]; simpl.
  - destruct (proc p); [| discriminate].
    destruct (osCmdline os _ _); [| discriminate].
    intros H. injection H as <- <- <-. reflexivity.
  - intros H. injection H as <- <- <-. reflexivity.
Qed.

Lemma Exe_hit (p : Process) (c : Calls) :
  exe p <> "" -> Exe os p c = (inl (exe p), p, c).
Proof.
  intros Hne. unfold Exe.
  destruct (String.eqb_spec (exe p) ""); [contradiction | reflexivity].
Qed.

Lemma Cmdline_hit (p : Process) (c : Calls) :
  cmdline p <> "" -> Cmdline os p c = (inl (cmdline p), p, c).
Proof.
  intros Hne. unfold Cmdline.
  destruct (String.eqb_spec (cmdline p) ""); [contradiction | reflexivity].
Qed.

End Memo.

(** C9, as amended: once a call of [Exe] (of [Cmdline]) has succeeded with
    a non-empty string, every later call on the handle, after any other
    uses of it, returns that same string, leaves the handle as it is and
    makes no call to the operating system; the oracle behind it is never
    asked again. *)
Theorem nonempty_result_memoized
  (os : ProcessOS) (p : Process) (c : Calls) (v : string)
  (p1 : Process) (c1 : Calls) (later : list Access) :
  v <> "" ->
  (Exe os p c = (inl v, p1, c1) ->
   let '(p2, c2) := accesses os later p1 c1 in
   Exe os p2 c2 = (inl v, p2, c2) /\ exeCalls c2 = exeCalls c1) /\
  (Cmdline os p c = (inl v, p1, c1) ->
   let '(p2, c2) := accesses os later p1 c1 in
   Cmdline os p2 c2 = (inl v, p2, c2) /\ cmdlineCalls c2 = cmdlineCalls c1).
Proof.
  intros Hv. split; intros Hcall.
  - apply Exe_stores in Hcall.
    assert (Hne : exe p1 <> "") by congruence.
    destruct (accesses_exe_memo os later p1 c1 Hne) as [He Hc].
    destruct (accesses os later p1 c1) as [p2 c2]. simpl in He, Hc.
    split; [| exact Hc].
    rewrite Exe_hit by congruence. congruence.
  - apply Cmdline_stores in Hcall.
    assert (Hne : cmdline p1 <> "") by congruence.
    destruct (accesses_cmdline_memo os later p1 c1 Hne) as [He Hc].
    destruct (accesses os later p1 c1) as [p2 c2]. simpl in He, Hc.
    split; [| exact Hc].
    rewrite Cmdline_hit by congruence. congruence.
Qed.

(** C9 on a handle whose executable path resolves to a non-empty string. *)
Lemma nonempty_result_memoized_witness :
  let p := handle {| Pid := 7 |} "sshd" in
  let c := {| exeCalls := 0; cmdlineCalls := 0 |} in
  let p1 := setExe p "/usr/sbin/sshd" in
  let c1 := {| exeCalls := 1; cmdlineCalls := 0 |} in
  "/usr/sbin/sshd" <> "" /\
  Exe sshd_handle_os p c = (inl "/usr/sbin/sshd", p1, c1) /\
  let '(p2, c2) := accesses sshd_handle_os [AccessCmdline; AccessExe] p1 c1 in
  Exe sshd_handle_os p2 c2 = (inl "/usr/sbin/sshd", p2, c2) /\ exeCalls c2 = exeCalls c1.
Proof.
  intros p c p1 c1.
  assert (Hv : "/usr/sbin/sshd" <> "") by discriminate.
  split; [exact Hv |].
  split; [reflexivity |].
  exact (proj1 (nonempty_result_memoized sshd_handle_os p c "/usr/sbin/sshd" p1 c1
                  [AccessCmdline; AccessExe] Hv) eq_refl).
Defined.

(** C9 as stated fails: a call of [Cmdline] that succeeds with the empty
    string stores nothing that a later call can tell from "not yet
    resolved", so the next call asks the operating system again and may
    return another value. *)
Lemma empty_result_not_memoized :
  ~ (forall (os : ProcessOS) (p : Process) (c : Calls) (v : string)
            (p1 : Process) (c1 : Calls),
        Cmdline os p c = (inl v, p1, c1) ->
        Cmdline os p1 c1 = (inl v, p1, c1)).
Proof.
  intros H.
  specialize (H late_cmdline_os (handle {| Pid := 1 |} "init")
                {| exeCalls := 0; cmdlineCalls := 0 |} ""
                (handle {| Pid := 1 |} "init")
                {| exeCalls := 0; cmdlineCalls := 1 |} eq_refl).
  discriminate H.
Qed.

(** ** The wifi monitor *)

(** C6: construction picks the first available backend in the order iw,
    nmcli, /proc/net/wireless, and no backend when none is available. *)
Theorem newWifiMonitor_first_available (sys : System) (adapter : string) :
  newWifiMonitor sys adapter = option_map (construct adapter) (firstAvailable sys) /\
  (newWifiMonitor sys adapter = None <->
   forall b, In b priority -> available sys b = false).
Proof.
  unfold newWifiMonitor, firstAvailable. split.
  - simpl.
    destruct (LookPath sys "iw"); simpl; [reflexivity |].
    destruct (LookPath sys "nmcli"); simpl; [reflexivity |].
    destruct (Stat sys "/proc/net/wireless"); reflexivity.
  - split.
    + intros H b Hb. simpl in Hb.
      destruct Hb as [<- | [<- | [<- | []]]]; simpl;
        destruct (LookPath sys "iw"); try discriminate;
        destruct (LookPath sys "nmcli"); try discriminate;
        destruct (Stat sys "/proc/net/wireless"); try discriminate;
        reflexivity.
    + intros H.
      pose proof (H BackendIw (or_introl eq_refl)) as H1.
      pose proof (H BackendNmcli (or_intror (or_introl eq_refl))) as H2.
      pose proof (H BackendProc (or_intror (or_intror (or_introl eq_refl)))) as H3.
      simpl in H1, H2, H3.
      destruct (LookPath sys "iw"); try discriminate;
        destruct (LookPath sys "nmcli"); try discriminate;
        destruct (Stat sys "/proc/net/wireless"); try discriminate;
        reflexivity.
Qed.

Lemma parseUint_nonneg (s : string) :
  forall acc n, 0 <= acc -> Strconv.parseUint s acc = inl n -> 0 <= n.
Proof.
  induction s as [| ch t IH]; intros acc n Hacc; simpl.
  - intros H. injection H as <-. exact Hacc.
  - unfold Strconv.digit.
    destruct (_ && _) eqn:Hd; [| discriminate].
    apply andb_prop in Hd. destruct Hd as [Hlo _]. apply Z.leb_le in Hlo.
    destruct (_ <? _); [discriminate |].
    apply IH. lia.
Qed.

Lemma Atoi_range (s : string) (n : Z) :
  Strconv.Atoi s = inl n -> GoInt.min_int <= n <= GoInt.max_int.
Proof.
  unfold Strconv.Atoi, Strconv.parseInt, GoInt.min_int, GoInt.max_int.
  destruct s as [| ch t]; [discriminate |].
  destruct (if (Ascii.eqb ch "-" || Ascii.eqb ch "+")%bool then t else String ch t)
    as [| b body']; [discriminate |].
  destruct (Strconv.parseUint (String b body') 0) as [un | e] eqn:Hu; [| discriminate].
  apply parseUint_nonneg in Hu; [| lia].
  destruct (Ascii.eqb ch "-").
  - destruct (Z.ltb_spec (2 ^ 63) un); [discriminate |].
    intros Heq. injection Heq as <-. lia.
  - destruct (Z.leb_spec (2 ^ 63) un); [discriminate |].
    intros Heq. injection Heq as <-. lia.
Qed.

Lemma negate_in_range (n : Z) :
  GoInt.min_int < n <= GoInt.max_int -> GoInt.mul (-1) n = - n.
Proof.
  unfold GoInt.mul, GoInt.wrap, GoInt.min_int, GoInt.max_int. intros H.
  replace (-1 * n + 2 ^ 63) with (2 ^ 63 - n) by lia.
  rewrite Z.mod_small by lia. lia.
Qed.

Lemma splitAux_nonempty (sep s : string) :
  forall skip cur, Strings.splitAux sep s skip cur <> [].
Proof.
  induction s as [| ch t IH]; intros skip cur; simpl; [discriminate |].
  destruct skip; [| apply IH].
  destruct sep as [| sc sepTail].
  - destruct t; discriminate.
  - destruct (_ && _)%bool; [discriminate | apply IH].
Qed.

Lemma Split_nonempty (s : string) (sc : ascii) (sepTail : string) :
  Strings.Split s (String sc sepTail) <> [].
Proof.
  unfold Strings.Split. destruct s; apply splitAux_nonempty.
Qed.

Section NmcliFacts.

Variable ParseFloat : string -> float + error.
Variable adapter : string.

(** Rows of other adapters, and rows of the adapter that are not active,
    only record whether the adapter was seen. *)
Lemma nmcliLines_skip (before rest : list string) :
  forall found,
    (forall l, In l before ->
               Strings.HasSuffix l adapter = true -> Strings.HasPrefix l "yes:" = false) ->
    nmcliLines ParseFloat adapter (before ++ rest) found =
    nmcliLines ParseFloat adapter rest
      (found || existsb (fun l => Strings.HasSuffix l adapter) before).
Proof.
  induction before as [| l ls IH]; intros found Hno; simpl.
  - rewrite orb_false_r. reflexivity.
  - destruct (Strings.HasSuffix l adapter) eqn:Hs; simpl.
    + rewrite (Hno l (or_introl eq_refl) Hs).
      rewrite IH by (intros; apply Hno; [right |]; assumption).
      rewrite orb_true_r. reflexivity.
    + apply IH. intros; apply Hno; [right |]; assumption.
Qed.

Lemma nmcliLines_no_active (lines : list string) (found : bool) :
  (forall l, In l lines ->
             Strings.HasSuffix l adapter = true -> Strings.HasPrefix l "yes:" = false) ->
  nmcliLines ParseFloat adapter lines found =
  Ret (None,
       Some (if found || existsb (fun l => Strings.HasSuffix l adapter) lines
             then ErrNotConnected else ErrAdapterNotFound)).
Proof.
  intros Hno.
  rewrite <- (app_nil_r lines) at 1.
  rewrite nmcliLines_skip by exact Hno. simpl.
  destruct (found || _); reflexivity.
Qed.

Lemma nmcliLines_active (line : string) (rest : list string) (found : bool)
      (sig : string) (n : Z) :
  Strings.HasSuffix line adapter = true ->
  Strings.HasPrefix line "yes:" = true ->
  nth_error (Strings.Split line ":") 6 = Some sig ->
  Strconv.Atoi sig = inl n ->
  exists st e,
    nmcliLines ParseFloat adapter (line :: rest) found = Ret (Some st, e) /\
    SignalStrength st = GoInt.mul (-1) n /\
    nth_error (Strings.Split line ":") 2 = Some (NetworkName st).
Proof.
  intros Hs Hp H6 Hn. simpl. rewrite Hs, Hp. simpl.
  unfold index at 1. rewrite H6. simpl. rewrite Hn.
  destruct (nth_error (Strings.Split line ":") 5) as [col5 |] eqn:H5.
  2:{ apply nth_error_None in H5.
      assert (6 < List.length (Strings.Split line ":"))%nat
        by (apply nth_error_Some; congruence).
      lia. }
  destruct (nth_error (Strings.Split line ":") 2) as [col2 |] eqn:H2.
  2:{ apply nth_error_None in H2.
      assert (6 < List.length (Strings.Split line ":"))%nat
        by (apply nth_error_Some; congruence).
      lia. }
  unfold index at 1. rewrite H5. simpl.
  destruct (Strings.Split col5 " ") as [| tok toks] eqn:Htok.
  { exfalso. exact (Split_nonempty col5 " " "" Htok). }
  simpl.
  destruct (ParseFloat tok) as [f | e]; unfold index; rewrite H2; simpl;
    eexists; eexists; (split; [reflexivity |]); simpl; auto.
Qed.

End NmcliFacts.

(** C7: the nmcli parser looks only at the lines that end with the adapter
    name.  When no line does, it returns ErrAdapterNotFound; when some line
    does and none of those begins with "yes:", it returns ErrNotConnected;
    and the first such line that begins with "yes:", when it has a SIGNAL
    column that parses as the integer [n], yields a snapshot whose signal
    strength is Go's [-1 * n], which is [- n] for every [n] above the
    smallest int, and whose network name is the third column. *)
Theorem nmcli_row_selection
  (ParseFloat : string -> float + error) (adapter out : string) :
  let lines := Strings.Split out Wifimonitor.newline in
  let result := nmcli_parseNetworkStatus ParseFloat adapter out in
  ((forall l, In l lines -> Strings.HasSuffix l adapter = false) ->
   result = Ret (None, Some ErrAdapterNotFound)) /\
  ((exists l, In l lines /\ Strings.HasSuffix l adapter = true) ->
   (forall l, In l lines ->
              Strings.HasSuffix l adapter = true -> Strings.HasPrefix l "yes:" = false) ->
   result = Ret (None, Some ErrNotConnected)) /\
  (forall before line after sig n,
      lines = before ++ line :: after ->
      (forall l, In l before ->
                 Strings.HasSuffix l adapter = true -> Strings.HasPrefix l "yes:" = false) ->
      Strings.HasSuffix line adapter = true ->
      Strings.HasPrefix line "yes:" = true ->
      nth_error (Strings.Split line ":") 6 = Some sig ->
      Strconv.Atoi sig = inl n ->
      exists st e,
        result = Ret (Some st, e) /\
        SignalStrength st = GoInt.mul (-1) n /\
        (n <> GoInt.min_int -> SignalStrength st = - n) /\
        nth_error (Strings.Split line ":") 2 = Some (NetworkName st)).
Proof.
  intros lines result. subst result. unfold nmcli_parseNetworkStatus.
  fold lines. split; [| split].
  - intros Hnone.
    rewrite nmcliLines_no_active by (intros l Hl Hs; rewrite Hnone in Hs; [discriminate | exact Hl]).
    simpl.
    replace (existsb (fun l => Strings.HasSuffix l adapter) lines) with false; [reflexivity |].
    symmetry. apply not_true_is_false. intros Hex.
    apply existsb_exists in Hex. destruct Hex as (l & Hl & Hs).
    rewrite Hnone in Hs by exact Hl. discriminate.
  - intros (l & Hl & Hs) Hno.
    rewrite nmcliLines_no_active by exact Hno. simpl.
    replace (existsb (fun l => Strings.HasSuffix l adapter) lines) with true; [reflexivity |].
    symmetry. apply existsb_exists. exists l. auto.
  - intros before line after sig n Hlines Hno Hs Hp H6 Hn.
    rewrite Hlines, nmcliLines_skip by exact Hno.
    destruct (nmcliLines_active ParseFloat adapter line after
                (false || existsb (fun l => Strings.HasSuffix l adapter) before)
                sig n Hs Hp H6 Hn) as (st & e & Hres & Hsig & Hname).
    exists st, e. repeat split; try assumption.
    intros Hmin. rewrite Hsig. apply negate_in_range.
    pose proof (Atoi_range sig n Hn). lia.
Qed.

(** C7 on two rows of the adapter, of which the second is active. *)
Lemma nmcli_row_selection_witness :
  exists st e,
    nmcli_parseNetworkStatus sampleParseFloat "wlan0" nmcli_sample = Ret (Some st, e) /\
    SignalStrength st = GoInt.mul (-1) 82 /\
    (82 <> GoInt.min_int -> SignalStrength st = - 82) /\
    nth_error (Strings.Split "yes:Home:Home:6:2437 MHz:130 Mbit/s:82:wlan0" ":") 2
    = Some (NetworkName st).
Proof.
  apply (proj2 (proj2 (nmcli_row_selection sampleParseFloat "wlan0" nmcli_sample))
           ["no:Guest:Guest:1:2412 MHz:54 Mbit/s:40:wlan0"]
           "yes:Home:Home:6:2437 MHz:130 Mbit/s:82:wlan0"
           [""] "82" 82).
  - reflexivity.
  - intros l [<- | []] _. reflexivity.
  - reflexivity.
  - reflexivity.
  - reflexivity.
  - reflexivity.
Defined.

(** C4, where the code departs from it: on a row of the adapter whose two
    numeric columns are both malformed, the /proc/net/wireless parser stops
    at the first one and returns a nil snapshot with that single error,
    whatever [ParseFloat] does. *)
Theorem proc_parser_aborts_on_first_error (ParseFloat : string -> float + error) :
  proc_parseNetworkStatus ParseFloat "wlan0" "wlan0: 0000 7x. -4x. -256" =
  Ret (None, Some (NumError "Atoi" "-4x" ErrSyntax)).
Proof. reflexivity. Qed.

(** C10, where the code departs from it: each of the three parsers panics
    with an index out of range on a short line that it selects, whatever
    [ParseFloat] and the float-to-int conversion do. *)
Theorem parsers_panic_on_short_lines
  (ParseFloat : string -> float + error) (intOfFloat : float -> Z) :
  nmcli_parseNetworkStatus ParseFloat "wlan0" "yes:wlan0" = Panic "index out of range" /\
  iw_parseNetworkStatus ParseFloat intOfFloat "rx bitrate:" = Panic "index out of range" /\
  proc_parseNetworkStatus ParseFloat "wlan0" "wlan0: 0000" = Panic "index out of range".
Proof. repeat split; reflexivity. Qed.

(** ** CPU usage *)

(** *** Signs of binary64 results *)

Lemma Prim2SF_zero : Prim2SF 0%float = S754_zero false.
Proof. reflexivity. Qed.

Lemma Prim2SF_hundred :
  Prim2SF 100%float = S754_finite false 7036874417766400 (-46).
Proof. reflexivity. Qed.

Lemma Prim2SF_minus_one :
  Prim2SF (-1)%float = S754_finite true 4503599627370496 (-52).
Proof. reflexivity. Qed.

Lemma Pow10_two : Float64.Pow10 2 = 100%float.
Proof. reflexivity. Qed.

Lemma not_below_zero (u : float) :
  (u <? 0)%float = false -> strictlyNegative (Prim2SF u) = false.
Proof.
  rewrite FloatAxioms.ltb_spec, Prim2SF_zero.
  destruct (Prim2SF u) as [s | s | | s m e]; try destruct s; simpl;
    intros H; try reflexivity; discriminate H.
Qed.

Lemma not_negative_not_invalid (x : float) :
  strictlyNegative (Prim2SF x) = false -> invalid x = false.
Proof.
  unfold invalid. rewrite FloatAxioms.eqb_spec, Prim2SF_minus_one.
  destruct (Prim2SF x) as [s | s | | s m e]; try destruct s; simpl;
    intros H; try reflexivity; discriminate H.
Qed.

Lemma binary_round_aux_sign (m e : Z) (l : location) :
  strictlyNegative (binary_round_aux prec emax false m e l) = false.
Proof.
  unfold binary_round_aux.
  destruct (shr_fexp prec emax m e l) as [mrs' e'].
  destruct (shr_fexp prec emax _ e' loc_Exact) as [mrs'' e''].
  destruct (shr_m mrs''); [reflexivity | | reflexivity].
  destruct (e'' <=? emax - prec); reflexivity.
Qed.

Lemma mul_hundred_sign (x : spec_float) :
  strictlyNegative x = false ->
  strictlyNegative (SF64mul x (S754_finite false 7036874417766400 (-46))) = false.
Proof.
  destruct x as [s | s | | s m e]; try destruct s; simpl;
    intros H; try reflexivity; try discriminate H.
  apply binary_round_aux_sign.
Qed.

Lemma div_hundred_sign (x : spec_float) :
  strictlyNegative x = false ->
  strictlyNegative (SF64div x (S754_finite false 7036874417766400 (-46))) = false.
Proof.
  destruct x as [s | s | | s m e]; try destruct s;
    intros H; try reflexivity; try discriminate H.
  unfold SF64div, SFdiv.
  destruct (SFdiv_core_binary prec emax (Z.pos m) e 7036874417766400 (-46))
    as [[mz ez] lz].
  apply binary_round_aux_sign.
Qed.

Lemma of_uint63_sign (k : Uint63.int) :
  strictlyNegative (Prim2SF (PrimFloat.of_uint63 k)) = false.
Proof.
  rewrite FloatAxioms.of_uint63_spec. unfold binary_normalize.
  pose proof (Uint63.to_Z_bounded k) as Hk.
  destruct (Uint63.to_Z k) as [| p | p]; [reflexivity | | lia].
  unfold binary_round.
  destruct (shl_align p 0 _) as [mz ez].
  apply binary_round_aux_sign.
Qed.

Lemma Round_sign (x : float) :
  strictlyNegative (Prim2SF x) = false ->
  strictlyNegative (Prim2SF (Float64.Round x)) = false.
Proof.
  unfold Float64.Round. intros H.
  destruct (Prim2SF x) as [s | s | | s m e] eqn:Hx; try (rewrite Hx; exact H).
  destruct s; [discriminate H |].
  destruct (0 <=? e); [rewrite Hx; reflexivity |].
  apply of_uint63_sign.
Qed.

(** The rounded value of a usage that is not below zero is not below zero
    either, so it cannot be the sentinel. *)
Lemma RoundValue_sign (u : float) :
  (u <? 0)%float = false ->
  strictlyNegative (Prim2SF (RoundValue u 2)) = false.
Proof.
  intros Hu. unfold RoundValue. rewrite Pow10_two.
  rewrite FloatAxioms.div_spec, Prim2SF_hundred. apply div_hundred_sign.
  apply Round_sign.
  rewrite FloatAxioms.mul_spec, Prim2SF_hundred. apply mul_hundred_sign.
  apply not_below_zero. exact Hu.
Qed.

Lemma leb_refl_not_nan (x : float) :
  is_nan x = false -> (x <=? x)%float = true.
Proof.
  unfold is_nan. rewrite FloatAxioms.eqb_spec, FloatAxioms.leb_spec. unfold SFeqb, SFleb.
  destruct (SFcompare (Prim2SF x) (Prim2SF x)) as [[| |] |];
    simpl; intros H; try reflexivity; discriminate H.
Qed.

Lemma leb_refl_nan (x : float) :
  (x <=? x)%float = true -> is_nan x = false.
Proof.
  unfold is_nan. rewrite FloatAxioms.eqb_spec, FloatAxioms.leb_spec. unfold SFeqb, SFleb.
  destruct (Prim2SF x) as [s | s | | s m e]; try destruct s; simpl;
    try reflexivity; try discriminate.
  - rewrite Z.compare_refl, Pos.compare_cont_refl. reflexivity.
  - rewrite Z.compare_refl, Pos.compare_cont_refl. reflexivity.
Qed.

Lemma CalculateUsage_unfold (prev curr : CPUCoreStats) :
  CalculateUsage prev curr =
  if regression prev curr then (-1)%float
  else RoundValue (clamp (rawUsage prev curr)) 2.
Proof.
  unfold CalculateUsage, regression, clamp, rawUsage, totalOf, idleOf, nonIdleOf.
  destruct (_ <=? _)%float; [reflexivity |].
  destruct (_ <? _)%float; [reflexivity |]. simpl.
  destruct (_ <? 0)%float; [reflexivity |].
  destruct (100 <? _)%float; reflexivity.
Qed.

(** C1 as stated fails: for the snapshot whose counters are NaN the two
    regression tests are false, and [CalculateUsage s s] is NaN, not -1. *)
Lemma nan_snapshot_not_invalid :
  invalid (CalculateUsage nanStats nanStats) = false /\
  regression nanStats nanStats = false.
Proof. split; reflexivity. Qed.

(** C1, as amended: [CalculateUsage] returns the sentinel -1 exactly when a
    counter regression is present (the current total is not above the
    previous one, or the current idle time is below the previous one), and
    [CalculateUsage s s] is -1 exactly for the snapshots [s] whose total is
    not NaN. *)
Theorem invalid_iff_regression (prev curr s : CPUCoreStats) :
  (invalid (CalculateUsage prev curr) = true <-> regression prev curr = true) /\
  (regression prev curr = true -> CalculateUsage prev curr = (-1)%float) /\
  (is_nan (totalOf s) = false -> CalculateUsage s s = (-1)%float) /\
  (invalid (CalculateUsage s s) = true -> is_nan (totalOf s) = false).
Proof.
  assert (Hiff : forall a b, invalid (CalculateUsage a b) = true <-> regression a b = true).
  { intros a b. rewrite CalculateUsage_unfold.
    destruct (regression a b) eqn:Hr.
    - split; reflexivity.
    - split; [| discriminate]. intros Hinv. exfalso.
      assert (Hnot : invalid (RoundValue (clamp (rawUsage a b)) 2) = false).
      { apply not_negative_not_invalid, RoundValue_sign.
        unfold clamp. destruct (rawUsage a b <? 0)%float eqn:H0; [reflexivity |].
        destruct (100 <? rawUsage a b)%float; [reflexivity | exact H0]. }
      congruence. }
  split; [apply Hiff |]. split; [| split].
  - intros Hr. rewrite CalculateUsage_unfold, Hr. reflexivity.
  - intros Hn. rewrite CalculateUsage_unfold. unfold regression.
    rewrite (leb_refl_not_nan _ Hn). reflexivity.
  - intros Hinv. apply Hiff in Hinv. unfold regression in Hinv.
    apply orb_prop in Hinv. destruct Hinv as [Hle | Hlt].
    + apply leb_refl_nan. exact Hle.
    + exfalso. revert Hlt. rewrite FloatAxioms.ltb_spec. unfold SFltb.
      destruct (Prim2SF (idleOf s)) as [b | b | | b m e]; try destruct b; simpl;
        try discriminate;
        rewrite Z.compare_refl, Pos.compare_cont_refl; discriminate.
Qed.

(** *** Bounds of binary64 results *)

Lemma fexp_eq (x : Z) : fexp prec emax x = Z.max (x - 53) (-1074).
Proof. reflexivity. Qed.

Lemma digits2_pos_upper (p : positive) :
  Z.pos p < 2 ^ Z.pos (digits2_pos p).
Proof.
  induction p as [p IH | p IH |]; simpl digits2_pos.
  - rewrite Pos2Z.inj_succ, Z.pow_succ_r by lia. lia.
  - rewrite Pos2Z.inj_succ, Z.pow_succ_r by lia. lia.
  - reflexivity.
Qed.

Lemma digits2_pos_bound (p : positive) :
  forall n, 0 <= n -> Z.pos p < 2 ^ n -> Z.pos (digits2_pos p) <= n.
Proof.
  induction p as [p IH | p IH |]; intros n Hn Hlt; simpl digits2_pos.
  - destruct (Z.eq_dec n 0) as [-> | Hne]; [simpl in Hlt; lia |].
    replace n with (Z.succ (n - 1)) in Hlt by lia.
    rewrite Z.pow_succ_r in Hlt by lia.
    rewrite Pos2Z.inj_succ. specialize (IH (n - 1)). lia.
  - destruct (Z.eq_dec n 0) as [-> | Hne]; [simpl in Hlt; lia |].
    replace n with (Z.succ (n - 1)) in Hlt by lia.
    rewrite Z.pow_succ_r in Hlt by lia.
    rewrite Pos2Z.inj_succ. specialize (IH (n - 1)). lia.
  - destruct (Z.eq_dec n 0) as [-> | Hne]; [simpl in Hlt; lia | lia].
Qed.

Lemma Zdigits2_bound (M n : Z) :
  0 <= M -> 0 <= n -> M < 2 ^ n -> Zdigits2 M <= n.
Proof.
  intros HM Hn Hlt. destruct M as [| p | p]; simpl; [lia | | lia].
  apply digits2_pos_bound; assumption.
Qed.

Lemma shr_1_shifted (M j : Z) (r : shr_record) :
  0 <= j -> shifted M j r -> shifted M (j + 1) (shr_1 r).
Proof.
  intros Hj (Hm & Hb & Hex). unfold shifted.
  rewrite Z.pow_add_r, Z.pow_1_r by lia.
  assert (HP : 0 < 2 ^ j) by (apply Z.pow_pos_nonneg; lia).
  set (P := 2 ^ j) in *.
  destruct r as [m rr ss]. cbn [shr_m shr_r shr_s] in Hm, Hb, Hex.
  destruct m as [| [p | p |] | p]; cbn [shr_1 shr_m shr_r shr_s].
  - split; [lia |]. split; [nia |]. intros HM.
    destruct Hex as [-> ->]; [nia | auto].
  - rewrite Pos2Z.inj_xI in Hb.
    split; [lia |]. split; [nia |]. intros HM. exfalso. nia.
  - rewrite Pos2Z.inj_xO in Hb, Hex.
    split; [lia |]. split; [nia |]. intros HM.
    destruct Hex as [-> ->]; [nia | auto].
  - split; [lia |]. split; [nia |]. intros HM. exfalso. nia.
  - lia.
Qed.

Lemma iter_pos_shifted (M : Z) (p : positive) :
  forall j r, 0 <= j -> shifted M j r ->
              shifted M (j + Z.pos p) (iter_pos shr_1 p r).
Proof.
  induction p as [p IH | p IH |]; intros j r Hj Hs; simpl.
  - replace (j + Z.pos p~1) with (j + 1 + Z.pos p + Z.pos p) by lia.
    apply IH; [lia |]. apply IH; [lia |]. apply shr_1_shifted; assumption.
  - replace (j + Z.pos p~0) with (j + Z.pos p + Z.pos p) by lia.
    apply IH; [lia |]. apply IH; assumption.
  - apply shr_1_shifted; assumption.
Qed.

Lemma shr_shifted (M E k : Z) :
  0 <= M ->
  shifted M (Z.max k 0) (fst (shr (Build_shr_record M false false) E k)) /\
  snd (shr (Build_shr_record M false false) E k) = E + Z.max k 0.
Proof.
  intros HM.
  assert (H0 : shifted M 0 (Build_shr_record M false false)).
  { unfold shifted. simpl. repeat split; auto; lia. }
  destruct k as [| p | p]; simpl.
  - split; [exact H0 | lia].
  - split; [| lia].
    replace (Z.pos p) with (0 + Z.pos p) at 1 by lia.
    apply iter_pos_shifted; [lia | exact H0].
  - split; [exact H0 | lia].
Qed.

Lemma round_nearest_even_bounds (m : Z) (l : location) :
  m <= round_nearest_even m l <= m + 1.
Proof.
  unfold round_nearest_even.
  destruct l as [| []]; try destruct (Z.even m); lia.
Qed.

(** One normalizing shift keeps a mantissa under the cap, also after
    rounding to nearest. *)
Lemma shr_fexp_cap (M E : Z) :
  0 <= M -> E <= -39 -> M <= 10000 * 2 ^ (- E) ->
  let r := fst (shr_fexp prec emax M E loc_Exact) in
  let e' := snd (shr_fexp prec emax M E loc_Exact) in
  e' <= -39 /\ 0 <= shr_m r /\
  shr_m r <= 10000 * 2 ^ (- e') /\
  round_nearest_even (shr_m r) (loc_of_shr_record r) <= 10000 * 2 ^ (- e').
Proof.
  intros HM HE Hcap. unfold shr_fexp. rewrite fexp_eq.
  change (shr_record_of_loc M loc_Exact) with (Build_shr_record M false false).
  assert (Hd : Zdigits2 M <= 14 - E).
  { apply Zdigits2_bound; [exact HM | lia |].
    replace (14 - E) with (14 + - E) by lia.
    rewrite Z.pow_add_r by lia.
    assert (0 < 2 ^ (- E)) by (apply Z.pow_pos_nonneg; lia).
    change (2 ^ 14) with 16384. nia. }
  set (k := Z.max (Zdigits2 M + E - 53) (-1074) - E).
  destruct (shr_shifted M E k HM) as [Hs He].
  destruct (shr (Build_shr_record M false false) E k) as [r e'].
  cbn [fst snd] in Hs, He |- *. subst e'.
  set (j := Z.max k 0) in *.
  assert (Hj : 0 <= j) by lia.
  assert (He' : E + j <= -39) by lia.
  destruct Hs as (Hm & Hb & Hex).
  assert (Hpow : 2 ^ (- E) = 2 ^ (- (E + j)) * 2 ^ j).
  { rewrite <- Z.pow_add_r by lia. f_equal. lia. }
  assert (HP : 0 < 2 ^ j) by (apply Z.pow_pos_nonneg; lia).
  assert (HQ : 0 < 2 ^ (- (E + j))) by (apply Z.pow_pos_nonneg; lia).
  rewrite Hpow in Hcap.
  set (P := 2 ^ j) in *. set (Q := 2 ^ (- (E + j))) in *.
  assert (Hle : shr_m r <= 10000 * Q) by nia.
  repeat split; try assumption.
  pose proof (round_nearest_even_bounds (shr_m r) (loc_of_shr_record r)) as Hr.
  destruct (Z.eq_dec M (shr_m r * P)) as [Heq | Hne].
  - destruct (Hex Heq) as [Hrr Hss].
    destruct r as [m rr ss]. cbn [shr_m shr_r shr_s] in *. subst rr ss.
    exact Hle.
  - assert (Hlt : shr_m r < 10000 * Q).
    { destruct (Z_lt_le_dec (shr_m r) (10000 * Q)) as [Hlt | Hge]; [exact Hlt |].
      exfalso. apply (Z.mul_le_mono_nonneg_r _ _ P) in Hge; lia. }
    lia.
Qed.

Lemma binary_round_aux_cap (M E : Z) :
  0 <= M -> E <= -39 -> M <= 10000 * 2 ^ (- E) ->
  atMost10000 (binary_round_aux prec emax false M E loc_Exact).
Proof.
  intros HM HE Hcap. unfold binary_round_aux.
  pose proof (shr_fexp_cap M E HM HE Hcap) as H1.
  destruct (shr_fexp prec emax M E loc_Exact) as [mrs' e'].
  cbn [fst snd] in H1. destruct H1 as (He' & Hm' & _ & Hr').
  pose proof (round_nearest_even_bounds (shr_m mrs') (loc_of_shr_record mrs')) as Hb.
  set (M2 := round_nearest_even (shr_m mrs') (loc_of_shr_record mrs')) in *.
  assert (HM2 : 0 <= M2) by lia.
  pose proof (shr_fexp_cap M2 e' HM2 He' Hr') as H2.
  destruct (shr_fexp prec emax M2 e' loc_Exact) as [mrs'' e''].
  cbn [fst snd] in H2. destruct H2 as (He'' & Hm'' & Hle & _).
  destruct (shr_m mrs'') as [| m | m]; [exact I | | lia].
  destruct (Z.leb_spec e'' (emax - prec)) as [_ | Hbig].
  - split; assumption.
  - unfold emax, prec in Hbig. lia.
Qed.

Lemma valid_mantissa (x : float) (s : bool) (m : positive) (e : Z) :
  Prim2SF x = S754_finite s m e -> Z.pos m < 2 ^ 53.
Proof.
  intros Hx. pose proof (Prim2SF_valid x) as Hv. rewrite Hx in Hv.
  unfold SpecFloat.valid_binary, bounded, canonical_mantissa in Hv.
  apply andb_prop in Hv. destruct Hv as [Hc _].
  apply Z.eqb_eq in Hc. rewrite fexp_eq in Hc.
  pose proof (digits2_pos_upper m) as Hu.
  assert (Hd : Z.pos (digits2_pos m) <= 53) by lia.
  apply (Z.pow_le_mono_r 2) in Hd; lia.
Qed.

Lemma not_above_hundred (m : positive) (e : Z) :
  Z.pos m < 2 ^ 53 ->
  SFltb (S754_finite false 7036874417766400 (-46)) (S754_finite false m e) = false ->
  e <= -46 /\ Z.pos m <= 100 * 2 ^ (- e).
Proof.
  intros Hm. change (2 ^ 53) with 9007199254740992 in Hm.
  unfold SFltb, SFcompare.
  destruct (Z.compare_spec (-46) e) as [<- | Hlt | Hgt].
  - fold (Pos.compare 7036874417766400 m).
    rewrite Pos2Z.inj_compare.
    change (100 * 2 ^ (- -46)) with 7036874417766400.
    destruct (Z.compare_spec 7036874417766400 (Z.pos m)) as [Heq | Hl | Hg];
      intros H; try discriminate H; lia.
  - discriminate.
  - intros _. split; [lia |].
    assert (Hp : 2 ^ 47 <= 2 ^ (- e)) by (apply Z.pow_le_mono_r; lia).
    change (2 ^ 47) with 140737488355328 in Hp. lia.
Qed.

Lemma mul_hundred_cap (m : positive) (e : Z) :
  e <= -46 -> Z.pos m <= 100 * 2 ^ (- e) ->
  atMost10000
    (SF64mul (S754_finite false m e) (S754_finite false 7036874417766400 (-46))).
Proof.
  intros He Hm. unfold SF64mul, SFmul. cbn [xorb].
  apply binary_round_aux_cap; [lia | lia |].
  rewrite Pos2Z.inj_mul.
  replace (- (e + -46)) with (- e + 46) by lia.
  rewrite Z.pow_add_r by lia.
  assert (HP : 0 < 2 ^ (- e)) by (apply Z.pow_pos_nonneg; lia).
  set (P := 2 ^ (- e)) in *.
  change (2 ^ 46) with 70368744177664.
  change (Z.pos 7036874417766400) with (100 * 70368744177664).
  nia.
Qed.

Lemma round_magnitude_cap (m : positive) (e : Z) :
  e <= -39 -> Z.pos m <= 10000 * 2 ^ (- e) ->
  0 <= Float64.round_magnitude m e <= 10000.
Proof.
  intros He Hm. unfold Float64.round_magnitude.
  assert (HP : 0 < 2 ^ (- e - 1)) by (apply Z.pow_pos_nonneg; lia).
  assert (Hpow : 2 ^ (- e) = 2 * 2 ^ (- e - 1)).
  { rewrite <- Z.pow_succ_r by lia. f_equal. lia. }
  rewrite Hpow in *. set (P := 2 ^ (- e - 1)) in *.
  split.
  - apply Z.div_pos; lia.
  - apply Z.lt_succ_r. apply Z.div_lt_upper_bound; lia.
Qed.

(** The quotient by 100 of every integer from 0 to 10000 is in range. *)
Lemma small_quotients_in_range :
  forallb (fun n => inRange (PrimFloat.of_uint63 (Uint63.of_Z n) / 100)%float)
          (map Z.of_nat (seq 0 (Z.to_nat 10001))) = true.
Proof. vm_compute. reflexivity. Qed.

Lemma small_quotient_in_range (n : Z) :
  0 <= n <= 10000 ->
  inRange (PrimFloat.of_uint63 (Uint63.of_Z n) / 100)%float = true.
Proof.
  intros Hn. pose proof small_quotients_in_range as Hall.
  rewrite forallb_forall in Hall. apply Hall.
  apply in_map_iff. exists (Z.to_nat n). split; [lia |].
  apply in_seq. lia.
Qed.

Lemma zero_quotient_in_range (x : float) (s : bool) :
  Prim2SF x = S754_zero s -> inRange (x / 100)%float = true.
Proof.
  intros Hx. rewrite <- (SF2Prim_Prim2SF x), Hx.
  destruct s; reflexivity.
Qed.

Lemma Round_quotient_in_range (x : float) :
  atMost10000 (Prim2SF x) -> inRange (Float64.Round x / 100)%float = true.
Proof.
  unfold Float64.Round. intros Hx.
  destruct (Prim2SF x) as [s | s | | s m e] eqn:Ex; try contradiction.
  - exact (zero_quotient_in_range x s Ex).
  - destruct s; [contradiction |]. destruct Hx as [He Hm].
    destruct (Z.leb_spec 0 e) as [Hpos | _]; [lia |].
    apply small_quotient_in_range, round_magnitude_cap; assumption.
Qed.

(** A usage between 0 and 100 stays there when rounded to two places. *)
Lemma RoundValue_range (u : float) :
  is_nan u = false -> (u <? 0)%float = false -> (100 <? u)%float = false ->
  inRange (RoundValue u 2) = true.
Proof.
  intros Hnan Hlo Hhi. unfold RoundValue. rewrite Pow10_two.
  apply Round_quotient_in_range.
  rewrite FloatAxioms.mul_spec, Prim2SF_hundred.
  unfold is_nan in Hnan. rewrite FloatAxioms.eqb_spec in Hnan.
  rewrite FloatAxioms.ltb_spec, Prim2SF_zero in Hlo.
  rewrite FloatAxioms.ltb_spec, Prim2SF_hundred in Hhi.
  destruct (Prim2SF u) as [s | s | | s m e] eqn:Eu.
  - exact I.
  - destruct s; discriminate.
  - discriminate.
  - destruct s; [discriminate |].
    pose proof (valid_mantissa u false m e Eu) as Hm.
    destruct (not_above_hundred m e Hm Hhi) as [He Hle].
    apply mul_hundred_cap; assumption.
Qed.

(** *** Comparisons *)

Lemma SFcompare_antisym (x y : spec_float) :
  SFcompare y x = option_map CompOpp (SFcompare x y).
Proof.
  destruct x as [s1 | s1 | | s1 m1 e1], y as [s2 | s2 | | s2 m2 e2];
    try destruct s1; try destruct s2; try reflexivity; simpl;
    rewrite (Z.compare_antisym e1 e2);
    destruct (e1 ?= e2) eqn:He; simpl; try reflexivity;
    rewrite (Pos.compare_cont_antisym m1 m2 Eq); reflexivity.
Qed.



Lemma is_nan_eq (x : float) : is_nan x = true -> x = nan.
Proof.
  unfold is_nan. rewrite FloatAxioms.eqb_spec. intros H.
  rewrite <- (SF2Prim_Prim2SF x).
  destruct (Prim2SF x) as [s | s | | s m e]; try destruct s;
    try discriminate H; try reflexivity;
    unfold SFeqb, SFcompare in H;
    rewrite Z.compare_refl, Pos.compare_cont_refl in H; discriminate H.
Qed.




(** C1 on a total that went backwards, and on a snapshot against itself. *)
Lemma invalid_iff_regression_witness :
  let prev := stats 200 0 200 in
  let curr := stats 100 0 100 in
  regression prev curr = true /\
  CalculateUsage prev curr = (-1)%float /\
  is_nan (totalOf curr) = false /\
  CalculateUsage curr curr = (-1)%float.
Proof.
  intros prev curr.
  destruct (invalid_iff_regression prev curr curr) as (_ & Hreg & Hsame & _).
  assert (Hr : regression prev curr = true) by reflexivity.
  assert (Hn : is_nan (totalOf curr) = false) by reflexivity.
  split; [exact Hr |]. split; [exact (Hreg Hr) |]. split; [exact Hn |].
  exact (Hsame Hn).
Defined.

(** * Further properties *)

(** ** CPU usage *)

Lemma RoundValue_nan : RoundValue nan 2 = nan.
Proof. reflexivity. Qed.

(** X1: for every pair of snapshots the result is the sentinel -1, or it
    is NaN (and then the raw percentage is NaN), or it lies in [0, 100]:
    no other number is ever returned. *)
Theorem usage_sentinel_nan_or_in_range (prev curr : CPUCoreStats) :
  CalculateUsage prev curr = (-1)%float \/
  (is_nan (CalculateUsage prev curr) = true /\ is_nan (rawUsage prev curr) = true) \/
  inRange (CalculateUsage prev curr) = true.
Proof.
  rewrite CalculateUsage_unfold.
  destruct (regression prev curr); [left; reflexivity | right].
  destruct (is_nan (rawUsage prev curr)) eqn:Hnan.
  - left. apply is_nan_eq in Hnan. rewrite Hnan. split; reflexivity.
  - right. unfold clamp.
    destruct (rawUsage prev curr <? 0)%float eqn:Hlo; [reflexivity |].
    destruct (100 <? rawUsage prev curr)%float eqn:Hhi; [reflexivity |].
    apply RoundValue_range; assumption.
Qed.

Lemma compare_not_nan (x y : float) :
  is_nan x = false -> is_nan y = false ->
  exists c, SFcompare (Prim2SF x) (Prim2SF y) = Some c.
Proof.
  unfold is_nan. rewrite !FloatAxioms.eqb_spec. intros Hx Hy.
  destruct (Prim2SF x) as [s1 | s1 | | s1 m1 e1]; try discriminate Hx;
    destruct (Prim2SF y) as [s2 | s2 | | s2 m2 e2]; try discriminate Hy;
    simpl; eexists; reflexivity.
Qed.

(** X2: a sample that is not invalid becomes invalid when the two
    snapshots are swapped, provided neither total is NaN: reading a valid
    pair backwards is always seen as a regression. *)
Theorem swapped_sample_invalid (prev curr : CPUCoreStats) :
  invalid (CalculateUsage prev curr) = false ->
  is_nan (totalOf prev) = false ->
  is_nan (totalOf curr) = false ->
  CalculateUsage curr prev = (-1)%float.
Proof.
  intros Hinv Hp Hc.
  assert (Hreg : regression prev curr = false).
  { destruct (regression prev curr) eqn:Hr; [| reflexivity].
    rewrite CalculateUsage_unfold, Hr in Hinv. discriminate Hinv. }
  unfold regression in Hreg. apply orb_false_elim in Hreg. destruct Hreg as [Hle _].
  rewrite CalculateUsage_unfold. unfold regression.
  replace (totalOf prev <=? totalOf curr)%float with true; [reflexivity |].
  symmetry. revert Hle. rewrite !FloatAxioms.leb_spec. unfold SFleb.
  rewrite (SFcompare_antisym (Prim2SF (totalOf curr)) (Prim2SF (totalOf prev))).
  destruct (compare_not_nan _ _ Hc Hp) as [c ->].
  destruct c; simpl; intros H; try reflexivity; discriminate H.
Qed.

(** X2 on the first example of the spec. *)
Lemma swapped_sample_invalid_witness :
  let prev := stats 100 100 200 in
  let curr := stats 150 150 300 in
  invalid (CalculateUsage prev curr) = false /\
  is_nan (totalOf prev) = false /\
  is_nan (totalOf curr) = false /\
  CalculateUsage curr prev = (-1)%float.
Proof.
  intros prev curr.
  assert (H1 : invalid (CalculateUsage prev curr) = false) by reflexivity.
  assert (H2 : is_nan (totalOf prev) = false) by reflexivity.
  assert (H3 : is_nan (totalOf curr) = false) by reflexivity.
  split; [exact H1 |]. split; [exact H2 |]. split; [exact H3 |].
  exact (swapped_sample_invalid prev curr H1 H2 H3).
Defined.


Lemma find_app_last {A : Type} (f : A -> bool) (l : list A) (a : A) :
  find f (l ++ [a]) =
  match find f l with
  | Some x => Some x
  | None => if f a then Some a else None
  end.
Proof.
  induction l as [| b l IH]; simpl; [reflexivity |].
  destruct (f b); [reflexivity | exact IH].
Qed.

Lemma readLoop_spec (rawStats : list TimesStat) :
  forall (stats : StatsMap) (totalStats : CPUCoreStats),
    snd (readLoop rawStats stats totalStats) = fold_left addToTotal rawStats totalStats /\
    forall key,
      fst (readLoop rawStats stats totalStats) key =
      match find (fun stat => String.eqb key (tsCPU stat)) (rev rawStats) with
      | Some stat => Some (coreStatsOf stat)
      | None => stats key
      end.
Proof.
  induction rawStats as [| stat rest IH]; intros stats totalStats; simpl.
  - split; reflexivity.
  - destruct (IH (statsMapSet stats (tsCPU stat) (coreStatsOf stat))
                 (addToTotal totalStats stat)) as [Htot Hmap].
    split; [exact Htot |].
    intros key. rewrite Hmap, find_app_last.
    destruct (find _ (rev rest)); [reflexivity |].
    unfold statsMapSet. destruct (String.eqb key (tsCPU stat)); reflexivity.
Qed.

(** X4: when [cpu.Times] succeeds, [ReadCPUStats] returns a map and no
    error; the key "cpu" holds the field-wise sums of all the cores, added
    in order from zero, also when a core is itself called "cpu"; every other
    key holds the counters of the last core reported under that name, and a
    name no core has is absent.  When [cpu.Times] fails, the error is
    returned with a nil map. *)
Theorem ReadCPUStats_total_and_cores (rawStats : list TimesStat) (e : error) :
  ReadCPUStats (inr e) = (None, Some e) /\
  exists stats,
    ReadCPUStats (inl rawStats) = (Some stats, None) /\
    stats "cpu" = Some (fold_left addToTotal rawStats zeroStats) /\
    forall key,
      key <> "cpu" ->
      stats key =
      option_map coreStatsOf
                 (find (fun stat => String.eqb key (tsCPU stat)) (rev rawStats)).
Proof.
  split; [reflexivity |].
  unfold ReadCPUStats.
  destruct (readLoop_spec rawStats emptyStatsMap zeroStats) as [Htot Hmap].
  destruct (readLoop rawStats emptyStatsMap zeroStats) as [stats totalStats].
  simpl in Htot, Hmap. eexists. split; [reflexivity |]. split.
  - unfold statsMapSet. simpl. rewrite Htot. reflexivity.
  - intros key Hkey. unfold statsMapSet.
    destruct (String.eqb_spec key "cpu") as [Heq | _]; [contradiction |].
    rewrite Hmap. destruct (find _ (rev rawStats)); reflexivity.
Qed.

(** ** Process handles *)

(** X5: a call of [Exe] or [Cmdline] that fails stores nothing and leaves
    the handle as it was, so the next call tries again.  On a handle without
    a process the error is "process is nil" and the operating system is not
    asked; otherwise the error is the one the operating system gave, after
    exactly one call to it. *)
Theorem failed_lookup_not_memoized
  (os : ProcessOS) (p : Process) (c : Calls) (e : error) (p1 : Process) (c1 : Calls) :
  (Exe os p c = (inr e, p1, c1) ->
   p1 = p /\ exe p = "" /\
   match proc p with
   | None => e = ErrorString "process is nil" /\ c1 = c
   | Some h => osExe os (Pid h) (exeCalls c) = inr e /\
               exeCalls c1 = S (exeCalls c) /\ cmdlineCalls c1 = cmdlineCalls c
   end) /\
  (Cmdline os p c = (inr e, p1, c1) ->
   p1 = p /\ cmdline p = "" /\
   match proc p with
   | None => e = ErrorString "process is nil" /\ c1 = c
   | Some h => osCmdline os (Pid h) (cmdlineCalls c) = inr e /\
               cmdlineCalls c1 = S (cmdlineCalls c) /\ exeCalls c1 = exeCalls c
   end).
Proof.
  split.
  - unfold Exe. destruct (String.eqb_spec (exe p) "") as [He | Hne]; simpl.
    + destruct (proc p) as [h |].
      * destruct (osExe os (Pid h) (exeCalls c)) as [v | e'] eqn:Hos;
          intros H; [discriminate H |].
        injection H as <- <- <-. simpl. auto.
      * intros H. injection H as <- <- <-. auto.
    + discriminate.
  - unfold Cmdline. destruct (String.eqb_spec (cmdline p) "") as [He | Hne]; simpl.
    + destruct (proc p) as [h |].
      * destruct (osCmdline os (Pid h) (cmdlineCalls c)) as [v | e'] eqn:Hos;
          intros H; [discriminate H |].
        injection H as <- <- <-. simpl. auto.
      * intros H. injection H as <- <- <-. auto.
    + discriminate.
Qed.

Lemma access_frame (os : ProcessOS) (a : Access) (p : Process) (c : Calls) :
  let p' := snd (fst (access os a p c)) in
  let c' := snd (access os a p c) in
  PID p' = PID p /\ Name p' = Name p /\ proc p' = proc p /\
  (exeCalls c <= exeCalls c' <=
   exeCalls c + exeAccesses [a])%nat.
Proof.
  unfold exeAccesses. destruct a; simpl.
  - unfold Exe. destruct (negb _); simpl; [repeat split; lia |].
    destruct (proc p) eqn:Hp; simpl; [| repeat split; auto; lia].
    destruct (osExe os _ _); simpl; repeat split; auto; lia.
  - unfold Cmdline. destruct (negb _); simpl; [repeat split; lia |].
    destruct (proc p) eqn:Hp; simpl; [| repeat split; auto; lia].
    destruct (osCmdline os _ _); simpl; repeat split; auto; lia.
Qed.

(** X6: whatever calls of [Exe] and [Cmdline] are made on a handle, its
    pid, its name and its process stay as they were, and the operating
    system is asked for the executable path at most once per call of
    [Exe]. *)
Theorem accessors_keep_identity (os : ProcessOS) (l : list Access) (p : Process) (c : Calls) :
  let p' := fst (accesses os l p c) in
  let c' := snd (accesses os l p c) in
  PID p' = PID p /\ Name p' = Name p /\ proc p' = proc p /\
  (exeCalls c <= exeCalls c' <= exeCalls c + exeAccesses l)%nat.
Proof.
  revert p c. induction l as [| a rest IH]; intros p c; simpl.
  - unfold exeAccesses. simpl. repeat split; lia.
  - pose proof (access_frame os a p c) as Ha.
    destruct (access os a p c) as [[r p1] c1]. simpl in Ha.
    destruct Ha as (H1 & H2 & H3 & H4).
    specialize (IH p1 c1). simpl in IH. destruct IH as (I1 & I2 & I3 & I4).
    unfold exeAccesses in *. destruct a; simpl in *;
      repeat split; try congruence; lia.
Qed.

(** X5 on a handle whose process is gone. *)
Lemma failed_lookup_not_memoized_witness :
  let p := handle {| Pid := 9 |} "sshd" in
  let c := {| exeCalls := 0; cmdlineCalls := 0 |} in
  let c1 := {| exeCalls := 1; cmdlineCalls := 0 |} in
  Exe gone_os p c = (inr (ErrorString "no such process"), p, c1) /\
  p = p /\ exe p = "" /\
  osExe gone_os 9 0 = inr (ErrorString "no such process") /\
  exeCalls c1 = 1%nat /\ cmdlineCalls c1 = 0%nat.
Proof.
  intros p c c1.
  assert (Hcall : Exe gone_os p c = (inr (ErrorString "no such process"), p, c1))
    by reflexivity.
  split; [exact Hcall |].
  exact (proj1 (failed_lookup_not_memoized gone_os p c
                  (ErrorString "no such process") p c1) Hcall).
Defined.

(** ** The process monitor, continued *)

Section MonitorFacts.

Variable os : OS.

Lemma matchesb_spec (target : string) (p : process_Process) :
  matchesb os target p = true <-> matchesTarget os target p.
Proof.
  unfold matchesb, matchesTarget.
  destruct (String.length target <=? 15)%nat.
  - destruct (commName os p) as [n |].
    + rewrite String.eqb_eq. split; [intros ->; reflexivity | intros H; congruence].
    + split; discriminate.
  - destruct (firstArg os p) as [arg |].
    + rewrite andb_true_iff, negb_true_iff, orb_true_iff, String.eqb_neq, !String.eqb_eq.
      split.
      * intros [Hne Hm]. exists arg. auto.
      * intros (a & Ha & Hne & Hm). injection Ha as <-. auto.
    + split; [discriminate |]. intros (a & Ha & _). discriminate Ha.
Qed.

(** One step of the scan, by the matching test: a matching process is
    stored under its pid, named as the target. *)
Lemma scanOne_matchesb (target : string) (ret : OrderedMap.t) (p : process_Process) :
  scanOne os target ret p =
  (if matchesb os target p
   then OrderedMap.Set_ ret (Pid p) (handle p target)
   else ret,
   [CallReadFile (lookupPath target p)]).
Proof.
  unfold scanOne, matchesb, lookupPath, getProcName, getProcCmdline, commName, firstArg.
  destruct (String.length target <=? 15)%nat.
  - destruct (ReadFile os _) as [contents | e]; [| reflexivity].
    destruct (String.eqb_spec (Strings.TrimSuffix contents Sensors.newline) target)
      as [-> | Hne]; reflexivity.
  - destruct (ReadFile os _) as [data | e]; [| reflexivity].
    destruct (Strings.Split data Sensors.nul) as [| arg0 args]; [reflexivity |].
    simpl hd_error. cbv iota.
    destruct (String.eqb_spec arg0 "") as [-> | Hne]; [reflexivity |].
    destruct (String.eqb_spec (Filepath.Base arg0) target) as [-> | Hnb]; [reflexivity |].
    destruct (String.eqb_spec arg0 target) as [-> | Hnc]; reflexivity.
Qed.

Lemma scan_calls (target : string) (procs : list process_Process) :
  forall ret,
    snd (scan os target ret procs) =
    map (fun q => CallReadFile (lookupPath target q)) procs.
Proof.
  induction procs as [| p rest IH]; intros ret; simpl; [reflexivity |].
  rewrite scanOne_matchesb.
  specialize (IH (if matchesb os target p
                  then OrderedMap.Set_ ret (Pid p) (handle p target) else ret)).
  destruct (scan os target _ rest) as [ret' tr']. simpl in *. rewrite IH. reflexivity.
Qed.

Lemma purge_calls (pids : list Z) :
  forall m, snd (purge os m pids) = map CallPidExists pids.
Proof.
  induction pids as [| pid rest IH]; intros m; simpl; [reflexivity |].
  specialize (IH (match PidExistsWithContext os pid with
                  | inl true => m
                  | _ => OrderedMap.Delete m pid
                  end)).
  destruct (purge os _ rest) as [m' tr]. simpl in *. rewrite IH. reflexivity.
Qed.

Lemma Set_Forall (P : Z * Process -> Prop) (m : OrderedMap.t) (k : Z) (v : Process) :
  Forall P m -> P (k, v) -> Forall P (OrderedMap.Set_ m k v).
Proof.
  intros Hm Hkv. induction m as [| [k' v'] rest IH]; simpl.
  - constructor; [exact Hkv | constructor].
  - inversion Hm as [| x l Hx Hl]; subst.
    destruct (Z.eqb k' k); constructor; auto.
Qed.

Lemma keys_Set_eq (m : OrderedMap.t) (k : Z) (v : Process) :
  OrderedMap.Keys (OrderedMap.Set_ m k v) =
  if existsb (Z.eqb k) (OrderedMap.Keys m)
  then OrderedMap.Keys m
  else OrderedMap.Keys m ++ [k].
Proof.
  unfold OrderedMap.Keys.
  induction m as [| [k' v'] rest IH]; simpl; [reflexivity |].
  rewrite (Z.eqb_sym k k').
  destruct (Z.eqb_spec k' k) as [-> | Hne]; simpl; [reflexivity |].
  rewrite IH.
  destruct (existsb (Z.eqb k) (map fst rest)); reflexivity.
Qed.

Lemma keys_Set_NoDup (m : OrderedMap.t) (k : Z) (v : Process) :
  NoDup (OrderedMap.Keys m) -> NoDup (OrderedMap.Keys (OrderedMap.Set_ m k v)).
Proof.
  intros Hm. rewrite keys_Set_eq.
  destruct (existsb (Z.eqb k) (OrderedMap.Keys m)) eqn:Hex; [exact Hm |].
  apply NoDup_app; [exact Hm | constructor; [intros [] | constructor] |].
  intros x Hx [Heq | []]. subst x.
  assert (Ht : existsb (Z.eqb k) (OrderedMap.Keys m) = true).
  { apply existsb_exists. exists k. split; [exact Hx | apply Z.eqb_refl]. }
  congruence.
Qed.

Lemma scan_fresh_NoDup (target : string) (procs : list process_Process) :
  forall ret,
    Forall (freshHandle target) ret -> NoDup (OrderedMap.Keys ret) ->
    Forall (freshHandle target) (fst (scan os target ret procs)) /\
    NoDup (OrderedMap.Keys (fst (scan os target ret procs))).
Proof.
  induction procs as [| p rest IH]; intros ret Hf Hn; simpl; [auto |].
  rewrite scanOne_matchesb.
  set (ret' := if matchesb os target p
               then OrderedMap.Set_ ret (Pid p) (handle p target) else ret).
  assert (Hf' : Forall (freshHandle target) ret').
  { subst ret'. destruct (matchesb os target p); [| exact Hf].
    apply Set_Forall; [exact Hf |].
    unfold freshHandle, handle. destruct p as [pid]. simpl. auto. }
  assert (Hn' : NoDup (OrderedMap.Keys ret')).
  { subst ret'. destruct (matchesb os target p); [| exact Hn].
    apply keys_Set_NoDup. exact Hn. }
  specialize (IH ret' Hf' Hn').
  destruct (scan os target ret' rest) as [ret'' tr']. exact IH.
Qed.

(** With distinct pids the scan appends the matching processes in the
    order of the enumeration. *)
Lemma scan_in_order (target : string) (procs : list process_Process) :
  forall ret,
    NoDup (OrderedMap.Keys ret ++ map Pid procs) ->
    fst (scan os target ret procs) =
    ret ++ map (fun q => (Pid q, handle q target)) (filter (matchesb os target) procs).
Proof.
  induction procs as [| p rest IH]; intros ret Hn; simpl.
  - rewrite app_nil_r. reflexivity.
  - rewrite scanOne_matchesb.
    assert (Hp : ~ In (Pid p) (OrderedMap.Keys ret)).
    { intros Hin. apply NoDup_remove_2 in Hn. apply Hn.
      apply in_or_app. left. exact Hin. }
    assert (Hrest : NoDup (OrderedMap.Keys ret ++ map Pid rest)).
    { apply NoDup_remove_1 in Hn. exact Hn. }
    assert (Hset : OrderedMap.Set_ ret (Pid p) (handle p target)
                   = ret ++ [(Pid p, handle p target)]).
    { clear - Hp. induction ret as [| [k v] r IHr]; simpl; [reflexivity |].
      destruct (Z.eqb_spec k (Pid p)) as [Heq | Hne].
      - exfalso. apply Hp. left. exact Heq.
      - rewrite IHr; [reflexivity |]. intros Hin. apply Hp. right. exact Hin. }
    destruct (matchesb os target p) eqn:Hm.
    + specialize (IH (OrderedMap.Set_ ret (Pid p) (handle p target))).
      destruct (scan os target _ rest) as [ret'' tr']. simpl in *.
      rewrite IH, Hset.
      * rewrite <- app_assoc. reflexivity.
      * rewrite Hset. unfold OrderedMap.Keys. rewrite map_app. simpl.
        rewrite <- app_assoc. simpl. exact Hn.
    + specialize (IH ret Hrest).
      destruct (scan os target ret rest) as [ret'' tr']. exact IH.
Qed.

Lemma Delete_filter (f : Z * Process -> bool) (m : OrderedMap.t) (pid : Z) :
  filter f (OrderedMap.Delete m pid) =
  filter (fun kv => negb (Z.eqb (fst kv) pid) && f kv) m.
Proof.
  unfold OrderedMap.Delete.
  induction m as [| kv m IHm]; simpl; [reflexivity |].
  destruct (Z.eqb (fst kv) pid); simpl; [exact IHm |].
  destruct (f kv); [f_equal |]; exact IHm.
Qed.

Lemma purge_spec (pids : list Z) :
  forall m,
    fst (purge os m pids) =
    filter (fun kv => negb (existsb (fun pid => Z.eqb (fst kv) pid && negb (alive os pid)) pids)) m.
Proof.
  induction pids as [| pid rest IH]; intros m; simpl.
  - induction m as [| kv m IHm]; simpl; [reflexivity | f_equal; exact IHm].
  - destruct (alive os pid) eqn:Ha.
    + assert (Hm : match PidExistsWithContext os pid with
                   | inl true => m
                   | _ => OrderedMap.Delete m pid
                   end = m).
      { unfold alive in Ha. destruct (PidExistsWithContext os pid) as [[|] | e];
          try discriminate Ha; reflexivity. }
      rewrite Hm. specialize (IH m).
      destruct (purge os m rest) as [m' tr]. simpl in *. rewrite IH.
      apply filter_ext. intros kv. rewrite andb_false_r. reflexivity.
    + assert (Hm : match PidExistsWithContext os pid with
                   | inl true => m
                   | _ => OrderedMap.Delete m pid
                   end = OrderedMap.Delete m pid).
      { unfold alive in Ha. destruct (PidExistsWithContext os pid) as [[|] | e];
          try discriminate Ha; reflexivity. }
      rewrite Hm. specialize (IH (OrderedMap.Delete m pid)).
      destruct (purge os (OrderedMap.Delete m pid) rest) as [m' tr]. simpl in *.
      rewrite IH, Delete_filter.
      apply filter_ext. intros kv. rewrite andb_true_r, negb_orb. reflexivity.
Qed.

Lemma purge_keys (m : OrderedMap.t) :
  fst (purge os m (OrderedMap.Keys m)) = filter (fun kv => alive os (fst kv)) m.
Proof.
  rewrite purge_spec. apply filter_ext_in. intros kv Hin.
  destruct (alive os (fst kv)) eqn:Ha.
  - apply negb_true_iff. apply not_true_is_false. intros Hex.
    apply existsb_exists in Hex. destruct Hex as (pid & _ & Hp).
    apply andb_prop in Hp. destruct Hp as [Heq Hd].
    apply Z.eqb_eq in Heq. subst pid. rewrite Ha in Hd. discriminate Hd.
  - apply negb_false_iff. apply existsb_exists. exists (fst kv). split.
    + unfold OrderedMap.Keys. apply in_map. exact Hin.
    + rewrite Z.eqb_refl, Ha. reflexivity.
Qed.

(** A hit of the cache, for the proofs below. *)
Lemma get_cached (p : ProcessMonitor) :
  (0 < OrderedMap.Len (Processes p))%nat ->
  disablePidCaching p = false ->
  GetProcessesWithContext os p =
  {| returned := Some (Processes p); err := None; monitor := p; calls := [] |}.
Proof.
  intros Hlen Hdis. unfold GetProcessesWithContext.
  apply Nat.ltb_lt in Hlen. rewrite Hlen, Hdis. simpl.
  destruct (_ <? Now os)%Z; reflexivity.
Qed.

(** What a call leaves in the monitor: the mapping it returned, and the
    configuration as it was. *)
Lemma get_monitor (p : ProcessMonitor) :
  name (monitor (GetProcessesWithContext os p)) = name p /\
  disablePidCaching (monitor (GetProcessesWithContext os p)) = disablePidCaching p /\
  (forall ret, returned (GetProcessesWithContext os p) = Some ret ->
               Processes (monitor (GetProcessesWithContext os p)) = ret).
Proof.
  assert (Hsync : name (monitor (sync os p)) = name p /\
                  disablePidCaching (monitor (sync os p)) = disablePidCaching p /\
                  (forall ret, returned (sync os p) = Some ret ->
                               Processes (monitor (sync os p)) = ret)).
  { unfold sync. destruct (purge os _ _) as [purged tr1].
    destruct (ProcessesWithContext os) as [procs | e].
    - destruct (scan os (name p) OrderedMap.New procs) as [ret tr2]. simpl.
      repeat split. intros r H. injection H as <-. reflexivity.
    - simpl. repeat split. intros r H. discriminate H. }
  unfold GetProcessesWithContext.
  destruct (0 <? OrderedMap.Len (Processes p))%nat; [| exact Hsync].
  destruct (disablePidCaching p) eqn:Hd; simpl; [exact Hsync |].
  destruct (_ <? Now os)%Z; simpl; (repeat split; auto; intros r H; injection H as <-; reflexivity).
Qed.

End MonitorFacts.

(** X7: the mapping a full resynchronization returns holds only handles as
    the scan builds them: stored under their own pid, holding the process
    of that pid, named exactly as the target, and with the executable path
    and the command line not yet resolved; and no pid occurs twice. *)
Theorem resync_handles_fresh (os : OS) (p : ProcessMonitor) (procs : list process_Process) :
  resyncs p ->
  ProcessesWithContext os = inl procs ->
  exists ret,
    returned (GetProcessesWithContext os p) = Some ret /\
    Forall (freshHandle (name p)) ret /\
    NoDup (OrderedMap.Keys ret).
Proof.
  intros Hre Hp. rewrite (get_resyncs os p Hre).
  destruct (sync_ok os p procs Hp) as (Hret & _).
  eexists. split; [exact Hret |].
  apply scan_fresh_NoDup; constructor.
Qed.

(** X7 on a fresh monitor watching [sshd]. *)
Lemma resync_handles_fresh_witness :
  exists ret,
    returned (GetProcessesWithContext sshd_os (NewProcessMonitor "sshd" false)) = Some ret /\
    Forall (freshHandle "sshd") ret /\
    NoDup (OrderedMap.Keys ret).
Proof.
  apply (resync_handles_fresh sshd_os (NewProcessMonitor "sshd" false)
           [ {| Pid := 7 |}; {| Pid := 8 |} ]).
  - left. reflexivity.
  - reflexivity.
Defined.

(** X8: when the enumerated processes have distinct pids, a full
    resynchronization returns exactly the matching processes, in the order
    of the enumeration, each under its pid with a handle named as the
    target. *)
Theorem resync_in_enumeration_order
  (os : OS) (p : ProcessMonitor) (procs : list process_Process) :
  resyncs p ->
  ProcessesWithContext os = inl procs ->
  NoDup (map Pid procs) ->
  returned (GetProcessesWithContext os p) =
  Some (map (fun q => (Pid q, handle q (name p)))
            (filter (matchesb os (name p)) procs)).
Proof.
  intros Hre Hp Hn. rewrite (get_resyncs os p Hre).
  destruct (sync_ok os p procs Hp) as (Hret & _).
  rewrite Hret. f_equal.
  rewrite scan_in_order; [reflexivity | exact Hn].
Qed.

(** X8 on a fresh monitor watching [sshd]. *)
Lemma resync_in_enumeration_order_witness :
  returned (GetProcessesWithContext sshd_os (NewProcessMonitor "sshd" false)) =
  Some (map (fun q => (Pid q, handle q "sshd"))
            (filter (matchesb sshd_os "sshd") [ {| Pid := 7 |}; {| Pid := 8 |} ])).
Proof.
  apply (resync_in_enumeration_order sshd_os (NewProcessMonitor "sshd" false)
           [ {| Pid := 7 |}; {| Pid := 8 |} ]).
  - left. reflexivity.
  - reflexivity.
  - repeat constructor; simpl; intuition discriminate.
Defined.

(** X9: when the enumeration fails in a full resynchronization, the call
    has already dropped from the cache every pid that does not exist any
    more or whose existence could not be read, and kept the other bindings
    in their order. *)
Theorem failed_enumeration_purges (os : OS) (p : ProcessMonitor) (e : error) :
  resyncs p ->
  ProcessesWithContext os = inr e ->
  Processes (monitor (GetProcessesWithContext os p)) =
  filter (fun kv => alive os (fst kv)) (Processes p).
Proof.
  intros Hre Hp. rewrite (get_resyncs os p Hre).
  rewrite <- purge_keys. unfold sync. rewrite Hp.
  destruct (purge os _ _) as [purged tr1]. reflexivity.
Qed.

(** X9 with pid caching disabled: pid 8 is gone and leaves the cache. *)
Lemma failed_enumeration_purges_witness :
  Processes (monitor (GetProcessesWithContext failing_os refreshing_monitor)) =
  filter (fun kv => alive failing_os (fst kv)) (Processes refreshing_monitor).
Proof.
  apply (failed_enumeration_purges failing_os refreshing_monitor
           (ErrorString "too many open files")).
  - right. reflexivity.
  - reflexivity.
Defined.

Lemma getAll_frozen (oss : list OS) (p : ProcessMonitor) :
  (0 < OrderedMap.Len (Processes p))%nat ->
  disablePidCaching p = false ->
  Forall (fun r => returned r = Some (Processes p) /\ err r = None /\ calls r = [])
         (getAll oss p).
Proof.
  intros Hlen Hdis. induction oss as [| os rest IH]; simpl; [constructor |].
  rewrite (get_cached os p Hlen Hdis). simpl.
  constructor; [auto | exact IH].
Qed.

(** X10: with pid caching enabled, once a call has returned a non-empty
    mapping, every later call, whatever the state of the operating system
    and the time, returns that same mapping with no error and without any
    call to the operating system: the cache is never refreshed. *)
Theorem cache_never_refreshed
  (os : OS) (p : ProcessMonitor) (ret : OrderedMap.t) (later : list OS) :
  disablePidCaching p = false ->
  returned (GetProcessesWithContext os p) = Some ret ->
  ret <> [] ->
  Forall (fun r => returned r = Some ret /\ err r = None /\ calls r = [])
         (getAll later (monitor (GetProcessesWithContext os p))).
Proof.
  intros Hdis Hret Hne.
  destruct (get_monitor os p) as (_ & Hd & Hproc).
  specialize (Hproc ret Hret).
  rewrite <- Hproc. apply getAll_frozen.
  - rewrite Hproc. destruct ret; [contradiction | simpl; lia].
  - rewrite Hd. exact Hdis.
Qed.

(** X10 after the first scan of a fresh monitor: the later states of the
    system, where nothing can be read or enumerated, are never looked at. *)
Lemma cache_never_refreshed_witness :
  Forall (fun r => returned r = Some [(7, handle {| Pid := 7 |} "sshd")] /\
                   err r = None /\ calls r = [])
         (getAll [failing_os; failing_os]
                 (monitor (GetProcessesWithContext sshd_os (NewProcessMonitor "sshd" false)))).
Proof.
  apply (cache_never_refreshed sshd_os (NewProcessMonitor "sshd" false)
           [(7, handle {| Pid := 7 |} "sshd")] [failing_os; failing_os]).
  - reflexivity.
  - reflexivity.
  - discriminate.
Defined.

(** X11: a full resynchronization builds its result from the enumeration
    alone: two monitors watching the same name return the same mapping and
    the same error, whatever each had cached. *)
Theorem resync_ignores_old_cache (os : OS) (p p' : ProcessMonitor) :
  resyncs p -> resyncs p' -> name p = name p' ->
  returned (GetProcessesWithContext os p) = returned (GetProcessesWithContext os p') /\
  err (GetProcessesWithContext os p) = err (GetProcessesWithContext os p').
Proof.
  intros Hre Hre' Hname.
  rewrite (get_resyncs os p Hre), (get_resyncs os p' Hre').
  unfold sync. rewrite Hname.
  destruct (purge os (Processes p) _) as [m1 t1].
  destruct (purge os (Processes p') _) as [m2 t2].
  destruct (ProcessesWithContext os) as [procs | e]; [| split; reflexivity].
  destruct (scan os (name p') OrderedMap.New procs) as [ret tr]. split; reflexivity.
Qed.

(** X11 on a fresh monitor and one with two processes cached. *)
Lemma resync_ignores_old_cache_witness :
  returned (GetProcessesWithContext sshd_os (NewProcessMonitor "sshd" true)) =
  returned (GetProcessesWithContext sshd_os refreshing_monitor) /\
  err (GetProcessesWithContext sshd_os (NewProcessMonitor "sshd" true)) =
  err (GetProcessesWithContext sshd_os refreshing_monitor).
Proof.
  apply (resync_ignores_old_cache sshd_os (NewProcessMonitor "sshd" true) refreshing_monitor).
  - left. reflexivity.
  - right. reflexivity.
  - reflexivity.
Defined.

(** X12: a call that returns an empty mapping, or fails, leaves the monitor
    in a state from which the next call makes a full resynchronization:
    finding nothing is never cached. *)
Theorem nothing_found_is_retried (os : OS) (p : ProcessMonitor) :
  returned (GetProcessesWithContext os p) = Some [] \/
  returned (GetProcessesWithContext os p) = None ->
  resyncs (monitor (GetProcessesWithContext os p)).
Proof.
  intros Hret. unfold resyncs.
  destruct (get_monitor os p) as (_ & Hd & Hproc).
  destruct (disablePidCaching p) eqn:Hdis; [right; congruence | left].
  destruct Hret as [Hempty | Hnone].
  - rewrite (Hproc [] Hempty). reflexivity.
  - revert Hnone. unfold GetProcessesWithContext. rewrite Hdis.
    destruct (0 <? OrderedMap.Len (Processes p))%nat eqn:Hlen; simpl.
    + destruct (_ <? Now os)%Z; discriminate.
    + apply Nat.ltb_ge in Hlen.
      destruct (Processes p) as [| kv m] eqn:Hm; [| simpl in Hlen; lia].
      unfold sync. rewrite Hm. simpl.
      destruct (ProcessesWithContext os) as [procs | e].
      * destruct (scan os (name p) OrderedMap.New procs). discriminate.
      * reflexivity.
Qed.

(** X12 when the enumeration fails on a fresh monitor. *)
Lemma nothing_found_is_retried_witness :
  resyncs (monitor (GetProcessesWithContext failing_os (NewProcessMonitor "sshd" false))).
Proof.
  apply (nothing_found_is_retried failing_os (NewProcessMonitor "sshd" false)).
  right. reflexivity.
Defined.

(** X13: the calls a full resynchronization makes to the operating system
    are, in order: one liveness check per cached pid, the enumeration, and,
    when it succeeds, exactly one file read per enumerated process, of its
    [comm] file for a target of at most 15 bytes and of its [cmdline] file
    otherwise. *)
Theorem resync_call_trace (os : OS) (p : ProcessMonitor) :
  resyncs p ->
  calls (GetProcessesWithContext os p) =
  map CallPidExists (OrderedMap.Keys (Processes p)) ++
  CallProcesses ::
  match ProcessesWithContext os with
  | inl procs => map (fun q => CallReadFile (lookupPath (name p) q)) procs
  | inr _ => []
  end.
Proof.
  intros Hre. rewrite (get_resyncs os p Hre). unfold sync.
  pose proof (purge_calls os (OrderedMap.Keys (Processes p)) (Processes p)) as Hpurge.
  destruct (purge os _ _) as [purged tr1]. simpl in Hpurge. subst tr1.
  destruct (ProcessesWithContext os) as [procs | e]; [| reflexivity].
  pose proof (scan_calls os (name p) procs OrderedMap.New) as Hscan.
  destruct (scan os (name p) OrderedMap.New procs) as [ret tr2]. simpl in Hscan.
  subst tr2. reflexivity.
Qed.

(** X13 with two cached pids and two enumerated processes. *)
Lemma resync_call_trace_witness :
  calls (GetProcessesWithContext sshd_os refreshing_monitor) =
  [CallPidExists 7; CallPidExists 8; CallProcesses;
   CallReadFile "/proc/7/comm"; CallReadFile "/proc/8/comm"].
Proof.
  apply (resync_call_trace sshd_os refreshing_monitor).
  right. reflexivity.
Defined.

Lemma str_app_nil_r (s : string) : (s ++ "")%string = s.
Proof. induction s as [| c t IH]; simpl; [reflexivity | rewrite IH; reflexivity]. Qed.

Lemma str_app_assoc (a b c : string) : ((a ++ b) ++ c)%string = (a ++ (b ++ c))%string.
Proof. induction a as [| d t IH]; simpl; [reflexivity | rewrite IH; reflexivity]. Qed.

Lemma HasPrefix_nil (s : string) : Strings.HasPrefix s "" = true.
Proof. destruct s; reflexivity. Qed.

(** Splitting at a one-byte separator, one byte at a time. *)
Lemma splitAux_step (c d : ascii) (t cur : string) :
  Strings.splitAux (String c EmptyString) (String d t) 0 cur =
  if Ascii.eqb d c
  then cur :: Strings.splitAux (String c EmptyString) t 0 EmptyString
  else Strings.splitAux (String c EmptyString) t 0 (cur ++ String d EmptyString)%string.
Proof.
  simpl. rewrite HasPrefix_nil, andb_true_r, (Ascii.eqb_sym c d). reflexivity.
Qed.

Lemma splitAux_first (c : ascii) (s : string) :
  forall cur,
    exists rest,
      Strings.splitAux (String c EmptyString) s 0 cur =
      (cur ++ beforeByte c s)%string :: rest.
Proof.
  induction s as [| d t IH]; intros cur.
  - exists []. simpl. rewrite str_app_nil_r. reflexivity.
  - rewrite splitAux_step. simpl beforeByte. destruct (Ascii.eqb d c).
    + eexists. rewrite str_app_nil_r. reflexivity.
    + destruct (IH (cur ++ String d EmptyString)%string) as [rest Hrest].
      exists rest. rewrite Hrest. f_equal.
      rewrite str_app_assoc. reflexivity.
Qed.

(** X14: [getProcCmdline] never reports "cmdline is empty": whenever the
    [cmdline] file can be read it returns the text before the first NUL
    byte (the whole content when there is none, the empty string for an
    empty file), and otherwise the error of the read. *)
Theorem getProcCmdline_first_argument (os : OS) (p : process_Process) :
  fst (getProcCmdline os p) =
  match ReadFile os (Filepath.Join ["/proc"; Strconv.Itoa (Pid p); "cmdline"]) with
  | inl data => inl (beforeByte "000" data)
  | inr e => inr e
  end.
Proof.
  unfold getProcCmdline.
  destruct (ReadFile os _) as [data | e]; [| reflexivity].
  assert (Hsplit : exists rest, Strings.Split data Sensors.nul = beforeByte "000" data :: rest).
  { unfold Strings.Split, Sensors.nul.
    destruct (splitAux_first "000" data EmptyString) as [rest Hrest].
    exists rest. destruct data; exact Hrest. }
  destruct Hsplit as [rest ->]. reflexivity.
Qed.

(** ** Strings *)

Lemma countByte_app (c : ascii) (a b : string) :
  countByte c (a ++ b)%string = (countByte c a + countByte c b)%nat.
Proof.
  induction a as [| d t IH]; simpl; [reflexivity | rewrite IH; lia].
Qed.

(** Splitting at a byte gives one piece more than the byte occurs. *)
Lemma splitAux_length (c : ascii) (s : string) :
  forall cur,
    List.length (Strings.splitAux (String c EmptyString) s 0 cur) = S (countByte c s).
Proof.
  induction s as [| d t IH]; intros cur; [reflexivity |].
  rewrite splitAux_step. simpl countByte.
  destruct (Ascii.eqb d c); simpl; rewrite IH; reflexivity.
Qed.

Lemma Split_length (c : ascii) (s : string) :
  List.length (Strings.Split s (String c EmptyString)) = S (countByte c s).
Proof.
  unfold Strings.Split. destruct s; apply splitAux_length.
Qed.

(** No piece holds the separator. *)
Lemma splitAux_pieces (c : ascii) (s : string) :
  forall cur piece,
    countByte c cur = 0%nat ->
    In piece (Strings.splitAux (String c EmptyString) s 0 cur) ->
    countByte c piece = 0%nat.
Proof.
  induction s as [| d t IH]; intros cur piece Hcur.
  - simpl. intros [<- | []]. exact Hcur.
  - rewrite splitAux_step. destruct (Ascii.eqb d c) eqn:Hd.
    + intros [<- | Hin]; [exact Hcur |]. apply (IH EmptyString); [reflexivity | exact Hin].
    + apply IH. rewrite countByte_app. simpl. rewrite Hd, Hcur. reflexivity.
Qed.

Lemma Split_pieces (c : ascii) (s piece : string) :
  In piece (Strings.Split s (String c EmptyString)) -> countByte c piece = 0%nat.
Proof.
  unfold Strings.Split. destruct s; apply splitAux_pieces; reflexivity.
Qed.

Lemma HasPrefix_count (c : ascii) (p : string) :
  forall s, Strings.HasPrefix s p = true -> (countByte c p <= countByte c s)%nat.
Proof.
  induction p as [| d p IH]; intros s; simpl; [lia |].
  destruct s as [| d' t]; simpl; [discriminate |].
  intros H. apply andb_prop in H. destruct H as [Hd Hp].
  apply Ascii.eqb_eq in Hd. subst d'. specialize (IH t Hp). lia.
Qed.

Lemma substring_count (c : ascii) (s : string) :
  forall n m, (countByte c (substring n m s) <= countByte c s)%nat.
Proof.
  induction s as [| d t IH]; intros n m.
  - destruct n, m; simpl; lia.
  - destruct n as [| n]; simpl.
    + destruct m as [| m]; simpl; [lia |]. specialize (IH 0%nat m). lia.
    + specialize (IH n m). lia.
Qed.

Lemma trimLeft_count (c : ascii) (fuel : nat) :
  forall s, (countByte c (Strings.trimLeft fuel s) <= countByte c s)%nat.
Proof.
  induction fuel as [| fuel IH]; intros s; simpl; [lia |].
  destruct (Strings.spacePrefix s) as [n |]; [| lia].
  specialize (IH (Strings.TrimPrefixLen n s)).
  pose proof (substring_count c s n (String.length s - n)) as Hs.
  unfold Strings.TrimPrefixLen in *. lia.
Qed.

Lemma trimRight_count (c : ascii) (fuel : nat) :
  forall s, (countByte c (Strings.trimRight fuel s) <= countByte c s)%nat.
Proof.
  induction fuel as [| fuel IH]; intros s; simpl; [lia |].
  destruct (Strings.spaceSuffix s) as [n |]; [| lia].
  specialize (IH (substring 0 (String.length s - n) s)).
  pose proof (substring_count c s 0 (String.length s - n)) as Hs. lia.
Qed.

Lemma TrimSpace_count (c : ascii) (s : string) :
  (countByte c (Strings.TrimSpace s) <= countByte c s)%nat.
Proof.
  unfold Strings.TrimSpace.
  pose proof (trimLeft_count c (String.length s) s) as Hl.
  pose proof (trimRight_count c (String.length (Strings.trimLeft (String.length s) s))
                (Strings.trimLeft (String.length s) s)) as Hr.
  lia.
Qed.

Lemma index_In {A : Type} (l : list A) (i : nat) (x : A) :
  index l i = Ret x -> In x l.
Proof.
  unfold index. destruct (nth_error l i) as [a |] eqn:Hn; [| discriminate].
  intros H. injection H as <-. exact (nth_error_In l i Hn).
Qed.

Lemma index_Ret {A : Type} (l : list A) (i : nat) (d : A) :
  (i < List.length l)%nat -> index l i = Ret (nth i l d).
Proof.
  intros Hlt. unfold index.
  rewrite (nth_error_nth' l d Hlt). reflexivity.
Qed.

Lemma index_Panic {A : Type} (l : list A) (i : nat) :
  (List.length l <= i)%nat -> index l i = Panic "index out of range".
Proof.
  intros Hle. unfold index.
  destruct (nth_error l i) eqn:Hn; [| reflexivity].
  apply nth_error_None in Hle. congruence.
Qed.

(** A line that starts with a text holding a colon has a second column. *)
Lemma second_column (line prefix : string) :
  Strings.HasPrefix line prefix = true ->
  (1 <= countByte ":" prefix)%nat ->
  index (Strings.Split line ":") 1 = Ret (nth 1 (Strings.Split line ":") "").
Proof.
  intros Hp Hc. apply index_Ret. rewrite Split_length.
  pose proof (HasPrefix_count ":" prefix line Hp). lia.
Qed.

(** ** The wifi monitor, continued *)

Lemma sameLink_refl (st : networkStatus) : sameLink st st.
Proof. unfold sameLink. auto. Qed.

Lemma stationValue_sameLink
      (st : networkStatus) (text : string) (set : networkStatus -> Z -> networkStatus) :
  (forall v, sameLink st (set st v)) ->
  exists st',
    match Strconv.Atoi text with
    | inl val => assign (Some st) set val
    | inr _ => Ret (Some st)
    end = Ret (Some st') /\ sameLink st st'.
Proof.
  intros Hset. destruct (Strconv.Atoi text) as [val | e]; simpl.
  - eexists. split; [reflexivity | apply Hset].
  - eexists. split; [reflexivity | apply sameLink_refl].
Qed.

Lemma stationLine_total (st : networkStatus) (line0 : string) :
  exists st', stationLine (Some st) line0 = Ret (Some st') /\ sameLink st st'.
Proof.
  unfold stationLine, stationField.
  set (line := Strings.TrimSpace line0).
  destruct (Strings.HasPrefix line "tx retries:") eqn:H1.
  { rewrite (second_column line "tx retries:" H1) by (simpl; lia). simpl.
    apply stationValue_sameLink. intros v. unfold sameLink. simpl. auto. }
  destruct (Strings.HasPrefix line "tx failed:") eqn:H2.
  { rewrite (second_column line "tx failed:" H2) by (simpl; lia). simpl.
    apply stationValue_sameLink. intros v. unfold sameLink. simpl. auto. }
  destruct (Strings.HasPrefix line "beacon signal avg:") eqn:H3.
  { rewrite (second_column line "beacon signal avg:" H3) by (simpl; lia). simpl.
    apply stationValue_sameLink. intros v. unfold sameLink. simpl. auto. }
  destruct (Strings.HasPrefix line "connected time:") eqn:H4.
  { rewrite (second_column line "connected time:" H4) by (simpl; lia). simpl.
    apply stationValue_sameLink. intros v. unfold sameLink. simpl. auto. }
  destruct (Strings.HasPrefix line "inactive time:") eqn:H5.
  { rewrite (second_column line "inactive time:" H5) by (simpl; lia). simpl.
    apply stationValue_sameLink. intros v. unfold sameLink. simpl. auto. }
  exists st. split; [reflexivity | apply sameLink_refl].
Qed.

Lemma stationLines_total (lines : list string) :
  forall st, exists st', stationLines (Some st) lines = Ret (Some st') /\ sameLink st st'.
Proof.
  induction lines as [| line rest IH]; intros st; simpl.
  - exists st. split; [reflexivity | apply sameLink_refl].
  - destruct (stationLine_total st line) as (st1 & H1 & S1). rewrite H1. simpl.
    destruct (IH st1) as (st2 & H2 & S2). exists st2. split; [exact H2 |].
    unfold sameLink in *. intuition congruence.
Qed.

Lemma parseStationDump_total_aux (out : string) (st : networkStatus) :
  exists st', parseStationDump out (Some st) = Ret (Some st') /\ sameLink st st'.
Proof. unfold parseStationDump. apply stationLines_total. Qed.

(** X15: on a snapshot that is not nil, [parseStationDump] never panics,
    whatever the text: it returns a snapshot, and that snapshot has the
    network name, signal strength, rates and frequency it was given; only
    the five station fields can change. *)
Theorem parseStationDump_total (out : string) (st : networkStatus) :
  exists st', parseStationDump out (Some st) = Ret (Some st') /\ sameLink st st'.
Proof. exact (parseStationDump_total_aux out st). Qed.

Section ParserFacts.

Variable ParseFloat : string -> float + error.
Variable intOfFloat : float -> Z.

(** The active row of the adapter decides what the nmcli parser does. *)
Lemma nmcliLines_cases (adapter : string) (lines : list string) :
  forall found,
    match firstActive adapter lines with
    | None =>
        nmcliLines ParseFloat adapter lines found =
        Ret (None,
             Some (if found || existsb (fun l => Strings.HasSuffix l adapter) lines
                   then ErrNotConnected else ErrAdapterNotFound))
    | Some line =>
        if (countByte ":" line <? 6)%nat
        then nmcliLines ParseFloat adapter lines found = Panic "index out of range"
        else exists st e,
            nmcliLines ParseFloat adapter lines found = Ret (Some st, e) /\
            NetworkName st = nth 2 (Strings.Split line ":") ""
    end.
Proof.
  unfold firstActive.
  induction lines as [| line rest IH]; intros found; simpl.
  - rewrite orb_false_r. destruct found; reflexivity.
  - destruct (Strings.HasSuffix line adapter) eqn:Hs; simpl.
    + destruct (Strings.HasPrefix line "yes:") eqn:Hp; simpl.
      * pose proof (Split_length ":" line) as Hlen.
        destruct (Nat.ltb_spec (countByte ":" line) 6) as [Hlt | Hge].
        { rewrite (index_Panic (Strings.Split line ":") 6) by lia. reflexivity. }
        rewrite (index_Ret (Strings.Split line ":") 6 "") by lia.
        rewrite (index_Ret (Strings.Split line ":") 5 "") by lia.
        rewrite (index_Ret (Strings.Split line ":") 2 "") by lia.
        cbn [bind].
        rewrite (index_Ret (Strings.Split (nth 5 (Strings.Split line ":") "") " ") 0 "")
          by (rewrite Split_length; lia).
        cbn [bind].
        destruct (Strconv.Atoi (nth 6 (Strings.Split line ":") ""));
          destruct (ParseFloat _); eexists; eexists; split; reflexivity.
      * specialize (IH true).
        destruct (find _ rest) as [l |].
        { exact IH. }
        rewrite IH. rewrite orb_true_r. reflexivity.
    + specialize (IH found).
      destruct (find _ rest) as [l |]; [exact IH |].
      rewrite IH. reflexivity.
Qed.

(** X16: the nmcli parser panics exactly when the first line that ends
    with the adapter name and begins with "yes:" holds fewer than six
    colons; on every other input it returns. *)
Theorem nmcli_panics_iff (adapter out : string) :
  (exists msg, nmcli_parseNetworkStatus ParseFloat adapter out = Panic msg) <->
  (exists line,
      firstActive adapter (Strings.Split out Wifimonitor.newline) = Some line /\
      (countByte ":" line < 6)%nat).
Proof.
  unfold nmcli_parseNetworkStatus.
  pose proof (nmcliLines_cases adapter (Strings.Split out Wifimonitor.newline) false) as H.
  destruct (firstActive adapter _) as [line |].
  - destruct (Nat.ltb_spec (countByte ":" line) 6) as [Hlt | Hge].
    + split; [intros _; exists line; auto | intros _; eexists; exact H].
    + destruct H as (st & e & Hres & _). split.
      * intros [msg Hm]. rewrite Hres in Hm. discriminate Hm.
      * intros (l & Hl & Hlt). injection Hl as <-. lia.
  - split.
    + intros [msg Hm]. rewrite H in Hm. discriminate Hm.
    + intros (l & Hl & _). discriminate Hl.
Qed.

(** The row of the adapter decides what the /proc/net/wireless parser
    does. *)
Lemma procLines_cases (adapter : string) (lines : list string) :
  match firstRow adapter lines with
  | None => procLines ParseFloat adapter lines = Ret (None, Some ErrAdapterNotFound)
  | Some line =>
      if (List.length (Strings.Fields (Strings.TrimSpace line)) <? 4)%nat
      then procLines ParseFloat adapter lines = Panic "index out of range"
      else (exists e, procLines ParseFloat adapter lines = Ret (None, Some e)) \/
           (exists st, procLines ParseFloat adapter lines = Ret (Some st, None) /\
                       NetworkName st = "unknown")
  end.
Proof.
  unfold firstRow.
  induction lines as [| line rest IH]; simpl; [reflexivity |].
  destruct (Strings.HasPrefix (Strings.TrimSpace line) adapter); [| exact IH].
  destruct (Nat.ltb_spec (List.length (Strings.Fields (Strings.TrimSpace line))) 4)
    as [Hlt | Hge].
  - rewrite (index_Panic (Strings.Fields (Strings.TrimSpace line)) 3) by lia. reflexivity.
  - rewrite (index_Ret (Strings.Fields (Strings.TrimSpace line)) 3 "") by lia.
    cbn [bind].
    destruct (Strconv.Atoi _) as [n | e]; [| left; eexists; reflexivity].
    rewrite (index_Ret (Strings.Fields (Strings.TrimSpace line)) 2 "") by lia.
    cbn [bind].
    destruct (ParseFloat _) as [f | e]; [| left; eexists; reflexivity].
    right. eexists. split; reflexivity.
Qed.

(** X17: the /proc/net/wireless parser panics exactly when the first line
    whose trimmed text starts with the adapter name has fewer than four
    fields; on every other input it returns. *)
Theorem proc_panics_iff (adapter out : string) :
  (exists msg, proc_parseNetworkStatus ParseFloat adapter out = Panic msg) <->
  (exists line,
      firstRow adapter (Strings.Split out Wifimonitor.newline) = Some line /\
      (List.length (Strings.Fields (Strings.TrimSpace line)) < 4)%nat).
Proof.
  unfold proc_parseNetworkStatus.
  pose proof (procLines_cases adapter (Strings.Split out Wifimonitor.newline)) as H.
  destruct (firstRow adapter _) as [line |].
  - destruct (Nat.ltb_spec (List.length (Strings.Fields (Strings.TrimSpace line))) 4)
      as [Hlt | Hge].
    + split; [intros _; exists line; auto | intros _; eexists; exact H].
    + split.
      * intros [msg Hm]. destruct H as [[e He] | (st & Hst & _)];
          rewrite Hm in *; discriminate.
      * intros (l & Hl & Hlt). injection Hl as <-. lia.
  - split.
    + intros [msg Hm]. rewrite H in Hm. discriminate Hm.
    + intros (l & Hl & _). discriminate Hl.
Qed.

(** X18: when the /proc/net/wireless parser returns, it returns either a
    snapshot with a nil error or a nil snapshot with an error, never both
    and never neither; the snapshot's network name is "unknown" and its
    receive rate, frequency and station fields are zero. *)
Theorem proc_snapshot_or_error (adapter out : string) (st : option networkStatus)
        (e : option error) :
  proc_parseNetworkStatus ParseFloat adapter out = Ret (st, e) ->
  (st = None <-> e <> None) /\
  (forall s, st = Some s ->
             s = withTxSpeedMbps
                   (withSignalStrength (withNetworkName zeroStatus "unknown")
                                       (SignalStrength s))
                   (TxSpeedMbps s)).
Proof.
  unfold proc_parseNetworkStatus.
  generalize (Strings.Split out Wifimonitor.newline) as lines.
  induction lines as [| line rest IH]; simpl.
  - intros H. injection H as <- <-. split; [split; [discriminate | reflexivity] |].
    intros s Hs. discriminate Hs.
  - destruct (Strings.HasPrefix (Strings.TrimSpace line) adapter); [| exact IH].
    destruct (index (Strings.Fields (Strings.TrimSpace line)) 3) as [col3 | msg];
      [| discriminate].
    cbn [bind].
    destruct (Strconv.Atoi _) as [n | e1].
    + destruct (index (Strings.Fields (Strings.TrimSpace line)) 2) as [col2 | msg];
        [| discriminate].
      cbn [bind].
      destruct (ParseFloat col2) as [f | e2]; intros H; injection H as <- <-.
      * split; [split; [discriminate | intros Hn; contradiction Hn; reflexivity] |].
        intros s Hs. injection Hs as <-. reflexivity.
      * split; [split; [discriminate | reflexivity] |]. intros s Hs. discriminate Hs.
    + intros H. injection H as <- <-.
      split; [split; [discriminate | reflexivity] |]. intros s Hs. discriminate Hs.
Qed.

End ParserFacts.

Lemma HasPrefix_head (s : string) (d : ascii) (p : string) :
  Strings.HasPrefix s (String d p) = true -> exists t, s = String d t.
Proof.
  destruct s as [| c t]; simpl; [discriminate |].
  intros H. apply andb_prop in H. destruct H as [Hd _].
  apply Ascii.eqb_eq in Hd. subst c. exists t. reflexivity.
Qed.

(** A line that starts as an SSID, frequency or signal line is no bitrate
    line. *)
Lemma not_bitrate (line : string) :
  Strings.HasPrefix line "SSID:" = true \/
  Strings.HasPrefix line "freq:" = true \/
  Strings.HasPrefix line "signal:" = true ->
  Strings.HasPrefix line "rx bitrate:" = false /\
  Strings.HasPrefix line "tx bitrate:" = false.
Proof.
  intros [H | [H | H]]; apply HasPrefix_head in H; destruct H as [t ->];
    split; reflexivity.
Qed.

Section IwFacts.

Variable ParseFloat : string -> float + error.
Variable intOfFloat : float -> Z.

(** One line of the iw parser: it panics on a bitrate line without a
    value after a space, and otherwise goes on; the network name it holds
    never gets a colon. *)
Lemma iwLine_cases (acc : networkStatus * option error) (line0 : string) :
  if shortBitrateLine line0
  then iwLine ParseFloat intOfFloat acc line0 = Panic "index out of range"
  else exists acc',
      iwLine ParseFloat intOfFloat acc line0 = Ret acc' /\
      (countByte ":" (NetworkName (fst acc)) = 0%nat ->
       countByte ":" (NetworkName (fst acc')) = 0%nat).
Proof.
  unfold shortBitrateLine, iwLine. destruct acc as [status e].
  set (line := Strings.TrimSpace line0).
  destruct (Strings.HasPrefix line "SSID:") eqn:H1.
  { destruct (not_bitrate line (or_introl H1)) as [-> ->]. simpl.
    rewrite (second_column line "SSID:" H1) by (simpl; lia). cbn [bind].
    eexists. split; [reflexivity |]. intros _. simpl.
    pose proof (TrimSpace_count ":" (nth 1 (Strings.Split line ":") "")) as Ht.
    assert (Hp : countByte ":" (nth 1 (Strings.Split line ":") "") = 0%nat).
    { apply (Split_pieces ":" line). apply nth_In. rewrite Split_length.
      pose proof (HasPrefix_count ":" "SSID:" line H1) as Hc. simpl in Hc. lia. }
    lia. }
  destruct (Strings.HasPrefix line "freq:") eqn:H2.
  { destruct (not_bitrate line (or_intror (or_introl H2))) as [-> ->]. simpl.
    rewrite (second_column line "freq:" H2) by (simpl; lia). cbn [bind].
    destruct (ParseFloat _); eexists; (split; [reflexivity | auto]). }
  destruct (Strings.HasPrefix line "signal:") eqn:H3.
  { destruct (not_bitrate line (or_intror (or_intror H3))) as [-> ->]. simpl.
    rewrite (second_column line "signal:" H3) by (simpl; lia). cbn [bind].
    destruct (Strconv.Atoi _); eexists; (split; [reflexivity | auto]). }
  destruct (Strings.HasPrefix line "rx bitrate:") eqn:H4.
  { simpl.
    rewrite (second_column line "rx bitrate:" H4) by (simpl; lia). cbn [bind].
    pose proof (Split_length " " (nth 1 (Strings.Split line ":") "")) as Hlen.
    destruct (Nat.eqb_spec (countByte " " (nth 1 (Strings.Split line ":") "")) 0)
      as [Hz | Hnz].
    - rewrite index_Panic by lia. reflexivity.
    - rewrite (index_Ret _ 1 "") by lia. cbn [bind].
      destruct (ParseFloat _); eexists; (split; [reflexivity | auto]). }
  destruct (Strings.HasPrefix line "tx bitrate:") eqn:H5.
  { simpl.
    rewrite (second_column line "tx bitrate:" H5) by (simpl; lia). cbn [bind].
    pose proof (Split_length " " (nth 1 (Strings.Split line ":") "")) as Hlen.
    destruct (Nat.eqb_spec (countByte " " (nth 1 (Strings.Split line ":") "")) 0)
      as [Hz | Hnz].
    - rewrite index_Panic by lia. reflexivity.
    - rewrite (index_Ret _ 1 "") by lia. cbn [bind].
      destruct (ParseFloat _); eexists; (split; [reflexivity | auto]). }
  simpl. eexists. split; [reflexivity | auto].
Qed.

Lemma iwLines_cases (lines : list string) :
  forall acc,
    if existsb shortBitrateLine lines
    then iwLines ParseFloat intOfFloat acc lines = Panic "index out of range"
    else exists acc',
        iwLines ParseFloat intOfFloat acc lines = Ret acc' /\
        (countByte ":" (NetworkName (fst acc)) = 0%nat ->
         countByte ":" (NetworkName (fst acc')) = 0%nat).
Proof.
  induction lines as [| line rest IH]; intros acc; simpl.
  - exists acc. auto.
  - pose proof (iwLine_cases acc line) as Hline.
    destruct (shortBitrateLine line); simpl.
    + rewrite Hline. reflexivity.
    + destruct Hline as (acc1 & H1 & N1). rewrite H1. cbn [bind].
      specialize (IH acc1).
      destruct (existsb shortBitrateLine rest); [exact IH |].
      destruct IH as (acc2 & H2 & N2). exists acc2. auto.
Qed.

(** X19: the iw parser panics exactly when the output mentions neither
    "Not connected" nor "No such device" and has a line that, trimmed,
    begins with "rx bitrate:" or "tx bitrate:" and has no space in the text
    between its first and second colon.  Lines of any other kind, also
    malformed SSID, frequency and signal lines, never make it panic. *)
Theorem iw_panics_iff (out : string) :
  (exists msg, iw_parseNetworkStatus ParseFloat intOfFloat out = Panic msg) <->
  Strings.Contains out "Not connected" = false /\
  Strings.Contains out "No such device" = false /\
  existsb shortBitrateLine (Strings.Split out Wifimonitor.newline) = true.
Proof.
  unfold iw_parseNetworkStatus.
  destruct (Strings.Contains out "Not connected").
  { split; [intros [msg H]; discriminate H | intros (H & _); discriminate H]. }
  destruct (Strings.Contains out "No such device").
  { split; [intros [msg H]; discriminate H | intros (_ & H & _); discriminate H]. }
  pose proof (iwLines_cases (Strings.Split out Wifimonitor.newline) (zeroStatus, None)) as H.
  destruct (existsb shortBitrateLine _).
  - rewrite H. split; [auto | intros _; eexists; reflexivity].
  - destruct H as (acc & Hacc & _). rewrite Hacc. cbn [bind].
    split; [intros [msg Hm]; discriminate Hm | intros (_ & _ & Hf); discriminate Hf].
Qed.

(** X20: a network name that the iw parser or the nmcli parser reports
    never holds a colon: the name is cut from a line split at the colons,
    so an SSID with a colon in it is reported only up to that colon. *)
Theorem network_name_without_colon
        (adapter out : string) (st : networkStatus) (e : option error) :
  (iw_parseNetworkStatus ParseFloat intOfFloat out = Ret (Some st, e) ->
   countByte ":" (NetworkName st) = 0%nat) /\
  (nmcli_parseNetworkStatus ParseFloat adapter out = Ret (Some st, e) ->
   countByte ":" (NetworkName st) = 0%nat).
Proof.
  split.
  - unfold iw_parseNetworkStatus.
    destruct (Strings.Contains out "Not connected"); [discriminate |].
    destruct (Strings.Contains out "No such device"); [discriminate |].
    pose proof (iwLines_cases (Strings.Split out Wifimonitor.newline) (zeroStatus, None)) as H.
    destruct (existsb shortBitrateLine _).
    + rewrite H. discriminate.
    + destruct H as (acc & Hacc & Hname). rewrite Hacc. cbn [bind].
      intros Hr. injection Hr as <- _. apply Hname. reflexivity.
  - unfold nmcli_parseNetworkStatus.
    pose proof (nmcliLines_cases ParseFloat adapter
                  (Strings.Split out Wifimonitor.newline) false) as H.
    destruct (firstActive adapter _) as [line |].
    + destruct (Nat.ltb_spec (countByte ":" line) 6) as [Hlt | Hge].
      * rewrite H. discriminate.
      * destruct H as (st' & e' & Hres & Hname). rewrite Hres.
        intros Hr. injection Hr as <- _. rewrite Hname.
        apply (Split_pieces ":" line). apply nth_In. rewrite Split_length. lia.
    + rewrite H. discriminate.
Qed.

End IwFacts.

Section StatusFacts.

Variable run : list string -> string + error.
Variable readFile : string -> string + error.
Variable errorText : error -> string.
Variable ParseFloat : string -> float + error.
Variable intOfFloat : float -> Z.

Lemma nmcli_notNilNil (adapter out : string) :
  notNilNil (nmcli_parseNetworkStatus ParseFloat adapter out).
Proof.
  unfold nmcli_parseNetworkStatus.
  pose proof (nmcliLines_cases ParseFloat adapter
                (Strings.Split out Wifimonitor.newline) false) as H.
  destruct (firstActive adapter _) as [line |].
  - destruct (countByte ":" line <? 6)%nat.
    + rewrite H. exact I.
    + destruct H as (st & e & -> & _). exact I.
  - rewrite H. exact I.
Qed.

Lemma proc_notNilNil (adapter out : string) :
  notNilNil (proc_parseNetworkStatus ParseFloat adapter out).
Proof.
  unfold proc_parseNetworkStatus.
  pose proof (procLines_cases ParseFloat adapter
                (Strings.Split out Wifimonitor.newline)) as H.
  destruct (firstRow adapter _) as [line |].
  - destruct (List.length _ <? 4)%nat.
    + rewrite H. exact I.
    + destruct H as [[e ->] | (st & -> & _)]; exact I.
  - rewrite H. exact I.
Qed.

(** What the iw parser returns: an error alone for the two markers, and
    otherwise a snapshot, with or without an error. *)
Lemma iw_parse_shape (out : string) (st : option networkStatus) (e : option error) :
  iw_parseNetworkStatus ParseFloat intOfFloat out = Ret (st, e) ->
  (st = None -> e <> None).
Proof.
  unfold iw_parseNetworkStatus.
  destruct (Strings.Contains out "Not connected").
  { intros H. injection H as <- <-. discriminate. }
  destruct (Strings.Contains out "No such device").
  { intros H. injection H as <- <-. discriminate. }
  destruct (iwLines ParseFloat intOfFloat _ _) as [acc | msg]; [| discriminate].
  cbn [bind]. intros H. injection H as <- <-. discriminate.
Qed.

Lemma enrich_total (adapter : string) (st : networkStatus) :
  exists st',
    enrichWithStationDump run adapter (Some st) = Ret (Some st') /\ sameLink st st'.
Proof.
  unfold enrichWithStationDump.
  destruct (run _) as [out | e].
  - apply parseStationDump_total_aux.
  - exists st. split; [reflexivity | apply sameLink_refl].
Qed.

End StatusFacts.

Section ApiFacts.

Variable run : list string -> string + error.
Variable readFile : string -> string + error.
Variable errorText : error -> string.
Variable ParseFloat : string -> float + error.
Variable intOfFloat : float -> Z.

(** X21: [GetNetworkStatus] of the iw backend returns all or nothing.
    When it returns, the snapshot is nil exactly when the error is not: a
    field error of the parser reaches the caller without the partially
    filled snapshot, and a snapshot is returned only with a nil error.  A
    failure of the link command with the text "exit status 237" is reported
    as ErrAdapterNotFound, and a failure of the station dump command leaves
    the parsed snapshot as the result. *)
Theorem iw_status_all_or_nothing (adapter : string) :
  (forall st e,
      iw_GetNetworkStatus run errorText ParseFloat intOfFloat adapter = Ret (st, e) ->
      (st = None <-> e <> None)) /\
  (forall out st err,
      run ["iw"; "dev"; adapter; "link"] = inl out ->
      iw_parseNetworkStatus ParseFloat intOfFloat out = Ret (st, Some err) ->
      iw_GetNetworkStatus run errorText ParseFloat intOfFloat adapter = Ret (None, Some err)) /\
  (forall err,
      run ["iw"; "dev"; adapter; "link"] = inr err ->
      errorText err = "exit status 237" ->
      iw_GetNetworkStatus run errorText ParseFloat intOfFloat adapter =
      Ret (None, Some ErrAdapterNotFound)) /\
  (forall out st err,
      run ["iw"; "dev"; adapter; "link"] = inl out ->
      iw_parseNetworkStatus ParseFloat intOfFloat out = Ret (Some st, None) ->
      run ["iw"; "dev"; adapter; "station"; "dump"] = inr err ->
      iw_GetNetworkStatus run errorText ParseFloat intOfFloat adapter = Ret (Some st, None)).
Proof.
  unfold iw_GetNetworkStatus. split; [| split; [| split]].
  - intros st e.
    destruct (run ["iw"; "dev"; adapter; "link"]) as [out | err].
    + destruct (iw_parseNetworkStatus ParseFloat intOfFloat out) as [[s1 e1] | msg] eqn:Hp;
        [| discriminate].
      cbn [bind]. destruct e1 as [err |].
      * intros Hr. injection Hr as <- <-.
        split; [discriminate | reflexivity].
      * pose proof (iw_parse_shape ParseFloat intOfFloat out s1 None Hp) as Hs.
        destruct s1 as [s1 |]; [| exfalso; apply Hs; reflexivity].
        destruct (enrich_total run adapter s1) as (s2 & -> & _). cbn [bind].
        intros Hr. injection Hr as <- <-.
        split; [discriminate | intros Hn; exfalso; apply Hn; reflexivity].
    + destruct (String.eqb _ _); intros Hr; injection Hr as <- <-;
        (split; [discriminate | reflexivity]).
  - intros out st err Hrun Hp. rewrite Hrun, Hp. reflexivity.
  - intros err Hrun Ht. rewrite Hrun, Ht. reflexivity.
  - intros out st err Hrun Hp Hdump. rewrite Hrun, Hp. cbn [bind].
    unfold enrichWithStationDump. rewrite Hdump. reflexivity.
Qed.

(** X22: through the [WifiMonitor] interface, whatever the backend, the
    commands and the file give, [GetNetworkStatus] never returns a nil
    snapshot together with a nil error: a caller that sees no error has a
    snapshot to read. *)
Theorem GetNetworkStatus_never_nil_nil (w : WifiMonitor) :
  notNilNil (GetNetworkStatus run readFile errorText ParseFloat intOfFloat w).
Proof.
  destruct w as [adapter | adapter | adapter]; simpl.
  - unfold iw_GetNetworkStatus.
    destruct (run ["iw"; "dev"; adapter; "link"]) as [out | err].
    + destruct (iw_parseNetworkStatus ParseFloat intOfFloat out) as [[s1 e1] | msg] eqn:Hp;
        [| exact I].
      cbn [bind]. destruct e1 as [err |]; [exact I |].
      pose proof (iw_parse_shape ParseFloat intOfFloat out s1 None Hp) as Hs.
      destruct s1 as [s1 |]; [| exfalso; apply Hs; reflexivity].
      destruct (enrich_total run adapter s1) as (s2 & -> & _). exact I.
    + destruct (String.eqb _ _); exact I.
  - unfold nmcli_GetNetworkStatus.
    destruct (run _) as [out | err]; [apply nmcli_notNilNil | exact I].
  - unfold proc_GetNetworkStatus.
    destruct (readFile _) as [out | err]; [apply proc_notNilNil | exact I].
Qed.

End ApiFacts.

(** X21 where the link parses cleanly and the station dump cannot be run. *)
Lemma iw_status_all_or_nothing_witness :
  exists st,
    iw_GetNetworkStatus sample_run sample_errorText sampleParseFloat (fun _ => 0) "wlan0"
    = Ret (Some st, None) /\
    NetworkName st = "Home" /\ SignalStrength st = -52.
Proof.
  eexists. split.
  - eapply (proj2 (proj2 (proj2 (iw_status_all_or_nothing
                                   sample_run sample_errorText sampleParseFloat
                                   (fun _ => 0) "wlan0")))).
    + reflexivity.
    + reflexivity.
    + reflexivity.
  - split; reflexivity.
Defined.

Section NmcliFields.

Variable ParseFloat : string -> float + error.

Lemma nmcliLines_active_row (adapter : string) (lines : list string) :
  forall found line,
    firstActive adapter lines = Some line ->
    (6 <= countByte ":" line)%nat ->
    let col := Strings.Split line ":" in
    let tok := nth 0 (Strings.Split (nth 5 col "") " ") "" in
    nmcliLines ParseFloat adapter lines found =
    Ret (Some {| NetworkName := nth 2 col "";
                 SignalStrength :=
                   GoInt.mul (-1) (match Strconv.Atoi (nth 6 col "") with
                                   | inl n => n
                                   | inr _ => -1
                                   end);
                 TxSpeedMbps :=
                   match ParseFloat tok with
                   | inl f => f
                   | inr _ => (-1)%float
                   end;
                 RxSpeedMbps := 0; FrequencyMHz := 0; TxRetries := 0;
                 TxFailed := 0; BeaconSignalAvg := 0;
                 ConnectedTimeSec := 0; InactiveTimeMs := 0 |},
         match ParseFloat tok with
         | inl _ =>
             match Strconv.Atoi (nth 6 col "") with
             | inl _ => None
             | inr err => Errors.Join [None; Some err]
             end
         | inr err2 =>
             Errors.Join [match Strconv.Atoi (nth 6 col "") with
                          | inl _ => None
                          | inr err => Errors.Join [None; Some err]
                          end; Some err2]
         end).
Proof.
  unfold firstActive.
  induction lines as [| l rest IH]; intros found line; simpl; [discriminate |].
  destruct (Strings.HasSuffix l adapter) eqn:Hs; simpl.
  - destruct (Strings.HasPrefix l "yes:") eqn:Hp; simpl.
    + intros Hl Hc. injection Hl as ->.
      pose proof (Split_length ":" line) as Hlen.
      rewrite (index_Ret (Strings.Split line ":") 6 "") by lia.
      rewrite (index_Ret (Strings.Split line ":") 5 "") by lia.
      rewrite (index_Ret (Strings.Split line ":") 2 "") by lia.
      cbn [bind].
      rewrite (index_Ret (Strings.Split (nth 5 (Strings.Split line ":") "") " ") 0 "")
        by (rewrite Split_length; lia).
      cbn [bind].
      destruct (Strconv.Atoi (nth 6 (Strings.Split line ":") ""));
        destruct (ParseFloat _); reflexivity.
    + intros Hl Hc. apply IH; assumption.
  - intros Hl Hc. apply IH; assumption.
Qed.

(** X23: for the active row of the adapter, when it has its eight
    columns, the nmcli parser always returns a snapshot named by the third
    column.  The error is nil exactly when both the SIGNAL column and the
    first word of the RATE column parse.  When SIGNAL does not parse, the
    signal strength reported is 1 (the fallback -1, negated like a real
    reading); when the rate does not parse, the rate reported is -1. *)
Theorem nmcli_active_row_fields (adapter out line : string) :
  firstActive adapter (Strings.Split out Wifimonitor.newline) = Some line ->
  (6 <= countByte ":" line)%nat ->
  let col := Strings.Split line ":" in
  let tok := nth 0 (Strings.Split (nth 5 col "") " ") "" in
  exists st e,
    nmcli_parseNetworkStatus ParseFloat adapter out = Ret (Some st, e) /\
    NetworkName st = nth 2 col "" /\
    (e = None <->
     (exists n, Strconv.Atoi (nth 6 col "") = inl n) /\ (exists f, ParseFloat tok = inl f)) /\
    (forall err, Strconv.Atoi (nth 6 col "") = inr err -> SignalStrength st = 1) /\
    (forall err, ParseFloat tok = inr err -> TxSpeedMbps st = (-1)%float).
Proof.
  intros Hl Hc col tok. unfold nmcli_parseNetworkStatus.
  rewrite (nmcliLines_active_row adapter _ false line Hl Hc).
  fold col. fold tok.
  eexists. eexists. split; [reflexivity |]. simpl.
  split; [reflexivity |].
  destruct (Strconv.Atoi (nth 6 col "")) as [n | e1];
    destruct (ParseFloat tok) as [f | e2]; simpl.
  - split; [| split; intros err H; discriminate H].
    split; [intros _; split; eexists; reflexivity | reflexivity].
  - split; [| split; intros err H; [discriminate H | reflexivity]].
    split; [discriminate | intros [_ [f H]]; discriminate H].
  - split; [| split; intros err H; [reflexivity | discriminate H]].
    split; [discriminate | intros [[n H] _]; discriminate H].
  - split; [| split; intros err H; reflexivity].
    split; [discriminate | intros [[n H] _]; discriminate H].
Qed.

End NmcliFields.

(** X23 on a row whose SIGNAL column reads "n/a". *)
Lemma nmcli_active_row_fields_witness :
  exists st e,
    nmcli_parseNetworkStatus sampleParseFloat "wlan0" nmcli_bad_signal = Ret (Some st, e) /\
    NetworkName st = "Home" /\
    SignalStrength st = 1 /\
    e <> None.
Proof.
  destruct (nmcli_active_row_fields sampleParseFloat "wlan0" nmcli_bad_signal
              "yes:Home:Home:6:2437 MHz:130 Mbit/s:n/a:wlan0" eq_refl)
    as (st & e & Hres & Hname & Herr & Hsig & _).
  - simpl. lia.
  - exists st, e. split; [exact Hres |]. split; [exact Hname |].
    split; [exact (Hsig _ eq_refl) |].
    intros He. apply Herr in He. destruct He as [[n Hn] _]. discriminate Hn.
Defined.

(** X18 on a file with one row for the adapter. *)
Lemma proc_snapshot_or_error_witness :
  exists s,
    proc_parseNetworkStatus sampleParseFloat "wlan0" proc_sample = Ret (Some s, None) /\
    (Some s = None <-> @None error <> None) /\
    NetworkName s = "unknown" /\ SignalStrength s = -40.
Proof.
  eexists. split; [reflexivity |].
  destruct (proc_snapshot_or_error sampleParseFloat "wlan0" proc_sample _ _ eq_refl)
    as [Hiff Hshape].
  split; [exact Hiff |].
  rewrite (Hshape _ eq_refl). split; reflexivity.
Defined.
